(** * sdao, Firebird back end: statement builder and placeholder translator

    A shallow embedding of [sdao/firebird/sqlbuilder.py] (class [SqlBuilder])
    and [sdao/firebird/cnn.py] (class [Cnn]), followed by the properties of
    the two that the specification states.

    Python [str] is modelled by [string], a [dict] that is only looked up by
    a [gmap string V], a [dict] of which only the key order matters by the
    list of its keys, Python lists by [list], and [str(int)] on the
    non-negative indices of the builder by stdpp's [pretty]. *)

From Stdlib Require Import Ascii.
From stdpp Require Import gmap strings list pretty.

(** ** Part I: the embedding *)

(** *** Python string operations used by the two classes *)
Module PyStr.

(** [s.count(c)] for a one-character [c]. *)
Fixpoint count_char (c : ascii) (s : string) : nat :=
  match s with
  | EmptyString => 0
  | String a s' => (if Ascii.eqb a c then 1 else 0) + count_char c s'
  end.

(** [sub in s]. *)
Fixpoint contains (sub s : string) : bool :=
  String.prefix sub s ||
  match s with
  | EmptyString => false
  | String _ s' => contains sub s'
  end.

(** [s[n:]]. *)
Fixpoint drop (n : nat) (s : string) : string :=
  match n, s with
  | 0, _ => s
  | S _, EmptyString => EmptyString
  | S n', String _ s' => drop n' s'
  end.

(** [s[:n]]. *)
Fixpoint take (n : nat) (s : string) : string :=
  match n, s with
  | 0, _ => EmptyString
  | S _, EmptyString => EmptyString
  | S n', String a s' => String a (take n' s')
  end.

(** [s[i:j]] for non-negative [i], [j]; empty when [j <= i]. *)
Definition slice (s : string) (i j : nat) : string := take (j - i) (drop i s).

(** [sep.join(parts)]. *)
Definition join (sep : string) (parts : list string) : string :=
  String.concat sep parts.


End PyStr.

(** *** Exceptions and results *)
Module Py.

(** The exceptions the two classes raise or let through.  [DriverError]
    stands for any error of the driver (they derive from [Exception]);
    [BaseOnly] for a [BaseException] that is not an [Exception]
    ([KeyboardInterrupt], [SystemExit]). *)
Inductive exn : Type :=
| KeyError (arg : string)
| ValueError (msg : string)
| TypeError (msg : string)
| DriverError (msg : string)
| BaseOnly (msg : string).

(** [isinstance(e, Exception)]: what [except Exception] catches. *)
Definition is_Exception (e : exn) : bool :=
  match e with
  | BaseOnly _ => false
  | _ => true
  end.

Inductive result (A : Type) : Type :=
| Ok (a : A)
| Raise (e : exn).
Global Arguments Ok {A} a.
Global Arguments Raise {A} e.

End Py.
Import Py.

(** *** The compiled pattern [%\(([^)]+)\)s] *)
Module Re.

(** The named placeholder [%(name)s], as the builder writes it and the
    pattern reads it. *)
Definition pyformat (name : string) : string := "%(" +:+ name +:+ ")s".

(** A match object: [m.span()] and [m.group(1)]. *)
Record pymatch : Type := Match {
  m_start : nat;
  m_end : nat;
  m_group1 : string
}.

(** The run [[^)]*] at the head of [s], and what follows it. *)
Fixpoint span_no_rparen (s : string) : string * string :=
  match s with
  | EmptyString => (EmptyString, EmptyString)
  | String a s' =>
      if Ascii.eqb a ")" then (EmptyString, s)
      else let '(run, rest) := span_no_rparen s' in (String a run, rest)
  end.

(** The pattern matched at the head of [s]: group 1 and the text after the
    match.  The class [[^)]] excludes only [")"], so the greedy run is
    followed by [")"] or by the end of the text, and giving characters
    back can never help: the only candidate is the longest run. *)
Definition match_here (s : string) : option (string * string) :=
  match s with
  | String "%" (String "(" body) =>
      match span_no_rparen body with
      | (String a name, String ")" (String "s" rest)) => Some (String a name, rest)
      | _ => None
      end
  | _ => None
  end.

(** [pattern.finditer] on the text [s] that starts at offset [pos]: the
    leftmost match, then the scan resumes after it; where the pattern does
    not match the scan moves one character on.  Every step consumes a
    character, so [fuel = len(s)] is never exhausted
    (lemma [finditer_from_fuel]). *)
Fixpoint finditer_from (fuel pos : nat) (s : string) : list pymatch :=
  match fuel with
  | 0 => []
  | S fuel' =>
      match s with
      | EmptyString => []
      | String _ s' =>
          match match_here s with
          | Some (name, rest) =>
              let stop := pos + (String.length name + 4) in
              Match pos stop name :: finditer_from fuel' stop rest
          | None => finditer_from fuel' (S pos) s'
          end
      end
  end.

Definition finditer (sql : string) : list pymatch :=
  finditer_from (String.length sql) 0 sql.

(** [pattern.sub(repl, sql)] with a callable [repl], by the same loop as
    the translator's: the text between the matches alternates with the
    replacements. *)
Fixpoint sub_loop (repl : pymatch → string) (sql : string) (ms : list pymatch)
    (last_pos : nat) : list string :=
  match ms with
  | [] => [PyStr.drop last_pos sql]
  | m :: ms' =>
      PyStr.slice sql last_pos (m_start m) :: repl m :: sub_loop repl sql ms' (m_end m)
  end.

Definition sub (repl : pymatch → string) (sql : string) : string :=
  PyStr.join EmptyString (sub_loop repl sql (finditer sql) 0).

(** The text of a match: [m.group(0)]. *)
Definition placeholder_of (m : pymatch) : string := pyformat (m_group1 m).

(** [[m.group(1) for m in pattern.finditer(sql)]]. *)
Definition names_in_order (sql : string) : list string :=
  m_group1 <$> finditer sql.

End Re.

(** *** [class SqlBuilder] *)
Module SqlBuilder.
Import Re.

(** The argument of [insert] and [update], as far as they inspect it: a
    dict (its keys, in order), a list of dicts, anything else. *)
Inductive py_data : Type :=
| DataDict (keys : list string)
| DataList (rows : list (list string))
| DataOther.

(** The double-quote character of Firebird identifiers. *)
Definition dquote : string := String "034"%char EmptyString.

Definition quoted (k : string) : string := dquote +:+ k +:+ dquote.

Definition insert (table : string) (data : py_data) : result string :=
  let build (keys : list string) :=
    let values := pyformat <$> keys in
    let columns := PyStr.join "," (quoted <$> keys) in
    Ok ("INSERT INTO " +:+ quoted table +:+ " (" +:+ columns +:+ ") VALUES("
          +:+ PyStr.join "," values +:+ ")") in
  match data with
  | DataDict keys => build keys
  | DataList (row0 :: _) => build row0
  | _ => Raise (ValueError "Data for insert() must be dict or non-empty list[dict]")
  end.

Definition update (table : string) (data : py_data) : result string :=
  let invalid := Raise (ValueError "Data for update() must be non-empty dict") in
  match data with
  | DataDict keys =>
      if length keys =? 0 then invalid
      else
        let pairs := (λ key, quoted key +:+ " = " +:+ pyformat key) <$> keys in
        Ok ("UPDATE " +:+ quoted table +:+ " SET " +:+ PyStr.join "," pairs)
  | _ => invalid
  end.

Definition delete (table : string) : string := "DELETE FROM " +:+ quoted table.

Section Where.
Context {V : Type}.

(** [condition["value"]]: [None], a list, or anything else. *)
Inductive cond_value : Type :=
| VNone
| VScalar (v : V)
| VList (l : list V).

(** One filter of [GetDao.filters]; [logicalOperator] is [None] or a
    connective. *)
Record condition : Type := Condition {
  paramName : string;
  logicalOperator : option string;
  comparisonOperator : string;
  value : cond_value
}.

Definition param_alias (name : string) : string := "param_" +:+ name.

(** [f"{paramAlias}_{k}"]. *)
Definition in_param_name (paramAlias : string) (k : nat) : string :=
  paramAlias +:+ "_" +:+ pretty k.

(** [while f"{paramAlias}_{next_index}" in usedParamNames: next_index += 1].
    The names tested are pairwise different, so the test succeeds at
    most [len(usedParamNames)] times; lemma [find_next_index_least] shows the
    result is the exit value of the loop. *)
Fixpoint next_index_from (fuel : nat) (paramAlias : string)
    (usedParamNames : list string) (next_index : nat) : nat :=
  match fuel with
  | 0 => next_index
  | S fuel' =>
      if bool_decide (in_param_name paramAlias next_index ∈ usedParamNames)
      then next_index_from fuel' paramAlias usedParamNames (S next_index)
      else next_index
  end.

Definition find_next_index (paramAlias : string) (usedParamNames : list string) : nat :=
  next_index_from (length usedParamNames) paramAlias usedParamNames 0.

(** [for i in range(0, len(condition["value"]))]: the loop state is
    [(usedParamNames, joinedValues)]. *)
Definition expand_step (paramAlias : string) (next_index : nat)
    (st : list string * list string) (i : nat) : list string * list string :=
  let inParamName := in_param_name paramAlias (i + next_index) in
  (st.1 ++ [inParamName], st.2 ++ [pyformat inParamName]).

Definition expand (paramAlias : string) (next_index n : nat)
    (usedParamNames : list string) : list string * list string :=
  fold_left (expand_step paramAlias next_index) (seq 0 n) (usedParamNames, []).

(** The body of [for condition in params]: the loop state is
    [(result, usedParamNames)]. *)
Definition where_step (st : string * list string) (c : condition)
  : string * list string :=
  let '(result, usedParamNames) := st in
  let paramName0 := quoted (paramName c) in
  let paramAlias := param_alias (paramName c) in
  let '(pName, lop, cop, val, used') :=
    match value c with
    | VList l =>
        let cop :=
          if bool_decide (comparisonOperator c ≠ "NOT IN") then "IN"
          else comparisonOperator c in
        let next_index := find_next_index paramAlias usedParamNames in
        let '(used', joinedValues) :=
          expand paramAlias next_index (length l) usedParamNames in
        let val := "(" +:+ PyStr.join "," joinedValues +:+ ")" in
        if length l <? 1 then (EmptyString, Some EmptyString, EmptyString, "1", used')
        else (paramName0, logicalOperator c, cop, val, used')
    | VScalar _ =>
        (paramName0, logicalOperator c, comparisonOperator c,
         " " +:+ pyformat paramAlias, usedParamNames)
    | VNone =>
        (paramName0, logicalOperator c, comparisonOperator c, EmptyString, usedParamNames)
    end in
  let result1 :=
    match lop with
    | Some l => result +:+ " " +:+ l
    | None => result
    end in
  (result1 +:+ " " +:+ pName +:+ " " +:+ cop +:+ val, used').

Definition where_loop (params : list condition) : string * list string :=
  fold_left where_step params ("WHERE", []).

Definition whereCondition (params : list condition) : string :=
  (where_loop params).1.

(** Notions used to state what the loop builds. *)

(** The connective as it is written before a condition. *)
Definition connective (lop : option string) : string :=
  match lop with
  | Some l => " " +:+ l
  | None => EmptyString
  end.

(** The operator written for a list-valued condition. *)
Definition in_operator (cop : string) : string :=
  if bool_decide (cop ≠ "NOT IN") then "IN" else cop.

(** [n] consecutive aliases of the column [name], from index [start]. *)
Definition aliases (name : string) (start n : nat) : list string :=
  (λ i, in_param_name (param_alias name) (i + start)) <$> seq 0 n.

(** The parenthesized, comma-joined group of placeholders. *)
Definition list_group (names : list string) : string :=
  "(" +:+ PyStr.join "," (pyformat <$> names) +:+ ")".

(** The number of list elements of the conditions of [pre] on column [name]. *)
Definition taken (pre : list condition) (name : string) : nat :=
  sum_list ((λ c, match value c with
                  | VList l => if bool_decide (paramName c = name) then length l else 0
                  | _ => 0
                  end) <$> pre).

(** What the loop writes for a condition with a scalar value, and for a
    list of such conditions. *)
Definition scalar_fragment (c : condition) : string :=
  connective (logicalOperator c) +:+ " " +:+ quoted (paramName c) +:+ " "
    +:+ comparisonOperator c +:+ " " +:+ pyformat (param_alias (paramName c)).

Definition scalar_clause (conds : list condition) : string :=
  foldr (λ c rest, scalar_fragment c +:+ rest) EmptyString conds.

Definition is_scalar (c : condition) : Prop :=
  match value c with
  | VScalar _ => True
  | _ => False
  end.

(** A condition none of whose texts can be read as part of a placeholder:
    no ['%'] in the column name, the operator and the connective, and no
    [')'] in the column name. *)
Definition plain (c : condition) : Prop :=
  PyStr.count_char "%" (paramName c) = 0
  ∧ PyStr.count_char ")" (paramName c) = 0
  ∧ PyStr.count_char "%" (comparisonOperator c) = 0
  ∧ PyStr.count_char "%" (connective (logicalOperator c)) = 0.

End Where.
Global Arguments cond_value : clear implicits.
Global Arguments condition : clear implicits.

End SqlBuilder.


(** *** [class Cnn] *)
Module Cnn.

(** What is handed to the driver as parameters: nothing, the caller's
    dict, or a positional sequence. *)
Inductive py_params (V : Type) : Type :=
| PNone
| PDict (d : gmap string V)
| PSeq (values : list V).
Global Arguments PNone {V}.
Global Arguments PDict {V} d.
Global Arguments PSeq {V} values.

(** The argument [data] of [create]. *)
Inductive create_data (V : Type) : Type :=
| Rows (rows : list (gmap string V))
| Row (d : gmap string V)
| NotRows.
Global Arguments Rows {V} rows.
Global Arguments Row {V} d.
Global Arguments NotRows {V}.

(** The [fdb] connection and its cursors are outside the repository: each
    call takes the driver from one state to the next and returns or
    raises. *)
Class Driver (V D Cursor : Type) : Type := {
  cnn_cursor : D → D * result Cursor;
  cnn_commit : D → D * result unit;
  cnn_rollback : D → D * result unit;
  cursor_execute : Cursor → string → py_params V → D → D * result unit;
  cursor_executemany : Cursor → string → list (py_params V) → D → D * result unit;
  cursor_close : Cursor → D → D * result unit;
  (** [None] when the cursor has no attribute [lastrowid]. *)
  cursor_lastrowid : Cursor → D → option (option V)
}.

Section Translator.
Context {V : Type}.

(** The loop state of [_convert_pyformat_to_qmark]. *)
Record scan_state : Type := ScanState {
  new_sql_parts : list string;
  values : list V;
  last_pos : nat
}.

Definition missing_parameter (name sql : string) : exn :=
  KeyError ("Parameter '" +:+ name +:+ "' not found for SQL: " +:+ sql).

(** [for match in self._pyformat_pattern.finditer(sql)]. *)
Fixpoint convert_loop (sql : string) (params : gmap string V)
    (ms : list Re.pymatch) (st : scan_state) : result scan_state :=
  match ms with
  | [] => Ok st
  | m :: ms' =>
      let name := Re.m_group1 m in
      let parts :=
        new_sql_parts st ++ [PyStr.slice sql (last_pos st) (Re.m_start m); "?"] in
      match params !! name with
      | None => Raise (missing_parameter name sql)
      | Some v => convert_loop sql params ms' (ScanState parts (values st ++ [v]) (Re.m_end m))
      end
  end.

(** [params] is [None] or a dict; [not params] holds for [None] and for the
    empty dict. *)
Definition _convert_pyformat_to_qmark (sql : string) (params : option (gmap string V))
  : result (string * py_params V) :=
  match params with
  | None => Ok (sql, PNone)
  | Some d =>
      if size d =? 0 then Ok (sql, PNone)
      else if negb (PyStr.contains "%(" sql) then Ok (sql, PDict d)
      else
        match convert_loop sql d (Re.finditer sql) (ScanState [] [] 0) with
        | Raise e => Raise e
        | Ok st =>
            let parts := new_sql_parts st ++ [PyStr.drop (last_pos st) sql] in
            Ok (PyStr.join EmptyString parts, PSeq (values st))
        end
  end.

(** [tuple(row[name] for name in names_in_order)]: [row[name]] raises the
    built-in [KeyError(name)]. *)
Fixpoint row_tuple (row : gmap string V) (names_in_order : list string)
  : result (list V) :=
  match names_in_order with
  | [] => Ok []
  | name :: names =>
      match row !! name with
      | None => Raise (KeyError name)
      | Some v =>
          match row_tuple row names with
          | Ok vs => Ok (v :: vs)
          | Raise e => Raise e
          end
      end
  end.

(** [for row in data: seq_params.append(...)]. *)
Fixpoint seq_params_loop (data : list (gmap string V)) (names_in_order : list string)
    (seq_params : list (py_params V)) : result (list (py_params V)) :=
  match data with
  | [] => Ok seq_params
  | row :: data' =>
      match row_tuple row names_in_order with
      | Raise e => Raise e
      | Ok t => seq_params_loop data' names_in_order (seq_params ++ [PSeq t])
      end
  end.

End Translator.

Section Facade.
Context {V D Cursor : Type} `{!Driver V D Cursor}.

(** The fields of a [Cnn] object that its methods read or write.  A cursor
    object is truthy, so [getattr(self, "_cursor", None)] is falsy exactly
    when the slot holds [None]. *)
Record cnn : Type := CnnObj {
  autocommit : bool;
  _cursor : option Cursor
}.

(** A method: from the driver and the object before the call to the driver
    and the object after it, with the value returned or the exception
    raised. *)
Definition M (A : Type) : Type := D * cnn → (D * cnn) * result A.

Definition ret {A} (a : A) : M A := λ s, (s, Ok a).
Definition raise {A} (e : exn) : M A := λ s, (s, Raise e).
Definition bind {A B} (m : M A) (k : A → M B) : M B :=
  λ s, match m s with
       | (s', Ok a) => k a s'
       | (s', Raise e) => (s', Raise e)
       end.
Definition call {A} (f : D → D * result A) : M A :=
  λ s, let '(d', r) := f s.1 in ((d', s.2), r).
Definition get_cursor : M (option Cursor) := λ s, (s, Ok (_cursor s.2)).
Definition set_cursor (c : option Cursor) : M unit :=
  λ s, ((s.1, CnnObj (autocommit s.2) c), Ok tt).
Definition get_autocommit : M bool := λ s, (s, Ok (autocommit s.2)).
Definition read_driver {A} (f : D → A) : M A := λ s, (s, Ok (f s.1)).

(** [try: m except Exception: pass]. *)
Definition try_except_Exception_pass (m : M unit) : M unit :=
  λ s, match m s with
       | (s', Raise e) => if is_Exception e then (s', Ok tt) else (s', Raise e)
       | r => r
       end.

#[global] Instance M_ret : MRet M := @ret.
#[global] Instance M_bind : MBind M := λ A B k m, bind m k.

(** The body shared by [commit] and [rollback] after the driver call. *)
Definition release_cursor : M unit :=
  c ← get_cursor;
  match c with
  | Some cur =>
      try_except_Exception_pass (call (cursor_close cur)) ;;
      set_cursor None
  | None => ret tt
  end.

Definition commit : M unit :=
  call cnn_commit ;;
  release_cursor.

Definition rollback : M unit :=
  call cnn_rollback ;;
  release_cursor.

(** [if seq is None: execute(sql) else: execute(sql, seq)]. *)
Definition execute_converted (cur : Cursor) (sql : string) (params : option (gmap string V))
  : M unit :=
  match _convert_pyformat_to_qmark sql params with
  | Raise e => raise e
  | Ok (sql_to_exec, seq) => call (cursor_execute cur sql_to_exec seq)
  end.

Definition create (sql : string) (data : create_data V) : M (option V) :=
  cur ← call cnn_cursor;
  set_cursor (Some cur) ;;
  match data with
  | Rows rows =>
      let names_in_order := Re.names_in_order sql in
      match names_in_order with
      | [] => call (cursor_executemany cur sql (PDict <$> rows))
      | _ =>
          let qmark_sql := Re.sub (λ _, "?") sql in
          match seq_params_loop rows names_in_order [] with
          | Raise e => raise e
          | Ok seq_params => call (cursor_executemany cur qmark_sql seq_params)
          end
      end
  | Row d => execute_converted cur sql (Some d)
  | NotRows => raise (TypeError "Data for 'create' must be dict or list[dict]")
  end ;;
  last_id ← read_driver (λ d, from_option id None (cursor_lastrowid cur d));
  ac ← get_autocommit;
  (if ac : bool then commit else ret tt) ;;
  ret last_id.

End Facade.
Global Arguments cnn : clear implicits.

End Cnn.

(** *** Concrete inputs used in the examples *)
Module Examples.
Import Cnn.

(** A driver whose state tells whether [commit] and [rollback] succeed,
    and whose cursors always fail to close. *)
#[global] Instance failing_close : Driver Z bool nat := {|
  cnn_cursor d := (d, Ok 0%nat);
  cnn_commit (d : bool) :=
    (d, if d then Ok tt else Raise (DriverError "commit failed"));
  cnn_rollback (d : bool) :=
    (d, if d then Ok tt else Raise (DriverError "rollback failed"));
  cursor_execute _ _ _ d := (d, Ok tt);
  cursor_executemany _ _ _ d := (d, Ok tt);
  cursor_close _ d := (d, Raise (DriverError "close failed"));
  cursor_lastrowid _ _ := None
|}.

(** A template that uses one name twice, and a source that binds it. *)
Definition twice_x : string := "u = %(x)s OR v = %(x)s".

Definition x_is_5 : gmap string Z := {["x" := 5%Z]}.

(** Two scalar conditions and a value source keyed by their aliases. *)
Definition two_scalars : list (SqlBuilder.condition Z) :=
  [SqlBuilder.Condition "id" None "=" (SqlBuilder.VScalar 5%Z);
   SqlBuilder.Condition "n" (Some "AND") "<" (SqlBuilder.VScalar 7%Z)].

Definition two_scalars_source : gmap string Z :=
  {["param_id" := 5%Z; "param_n" := 7%Z]}.


(** One scalar condition on column [id], and its clause. *)
Definition by_id : list (SqlBuilder.condition Z) :=
  [SqlBuilder.Condition "id" None "=" (SqlBuilder.VScalar 5%Z)].

Definition by_id_clause : string := SqlBuilder.whereCondition by_id.

(** An object with an open cursor. *)
Definition with_cursor : cnn nat := CnnObj true (Some 0%nat).

End Examples.

(** *** The rest of the two classes *)

(** [str.strip()], on texts of code points below 256. *)
Module PyStrip.

(** [c.isspace()]. *)
Definition isspace (a : ascii) : bool :=
  let n := nat_of_ascii a in
  ((9 <=? n) && (n <=? 13)) || ((28 <=? n) && (n <=? 32))
  || (n =? 133) || (n =? 160).

Fixpoint lstrip (s : string) : string :=
  match s with
  | EmptyString => EmptyString
  | String a s' => if isspace a then lstrip s' else s
  end.

Definition rstrip (s : string) : string := String.rev (lstrip (String.rev s)).

Definition strip (s : string) : string := rstrip (lstrip s).

(** A text of whitespace only. *)
Fixpoint all_space (s : string) : bool :=
  match s with
  | EmptyString => true
  | String a s' => isspace a && all_space s'
  end.

(** [dict(items)]: a later item replaces an earlier one with the same key. *)
Definition py_dict {V : Type} (items : list (string * V)) : gmap string V :=
  fold_left (λ m kv, <[kv.1 := kv.2]> m) items ∅.

End PyStrip.

(** [pattern.sub] read on the text alone, for a replacement that looks at
    group 1 only: the scan of [finditer_from], writing as it goes. *)
Module ReText.
Import Re.

Fixpoint subst_from (f : string → string) (fuel : nat) (s : string) : string :=
  match fuel with
  | 0 => s
  | S fuel' =>
      match s with
      | EmptyString => EmptyString
      | String a s' =>
          match match_here s with
          | Some (name, rest) => f name +:+ subst_from f fuel' rest
          | None => String a (subst_from f fuel' s')
          end
      end
  end.

End ReText.

Module CnnRest.
Import Cnn PyStrip.

(** The calls of the driver that [Cnn] makes beside those of [Driver].  A
    row of a result set has as many entries as the cursor's description,
    at least one; [cursor_description] gives [col[0]] of every entry, or
    [None] when the cursor has no result set. *)
Class Queries (V D Cursor : Type) : Type := {
  cnn_close : D → D * result unit;
  cursor_rowcount : Cursor → D → Z;
  cursor_fetchall : Cursor → D → D * result (list (V * list V));
  cursor_description : Cursor → D → option (list string)
}.

(** What [read] returns: the records, or with [onlyFirstRow] the first
    record or [None]. *)
Inductive read_result (V : Type) : Type :=
| Records (result : list (gmap string V))
| FirstRecord (r : option (gmap string V)).
Global Arguments Records {V} result.
Global Arguments FirstRecord {V} r.

(** What [getPrimaryKey] returns: [None], a column, or a list of columns. *)
Inductive primary_key (V : Type) : Type :=
| NoKey
| KeyColumn (c : V)
| KeyColumns (cols : list V).
Global Arguments NoKey {V}.
Global Arguments KeyColumn {V} c.
Global Arguments KeyColumns {V} cols.

(** The columns a result of [getPrimaryKey] stands for. *)
Definition key_columns {V : Type} (pk : primary_key V) : list V :=
  match pk with
  | NoKey => []
  | KeyColumn c => [c]
  | KeyColumns cols => cols
  end.

(** The query of [getPrimaryKey]. *)
Definition primary_key_sql : string := "
            SELECT
                TRIM(seg.RDB$FIELD_NAME)
            FROM
                RDB$RELATION_CONSTRAINTS rc
                JOIN RDB$INDEX_SEGMENTS seg
                    ON seg.RDB$INDEX_NAME = rc.RDB$INDEX_NAME
            WHERE
                rc.RDB$CONSTRAINT_TYPE = 'PRIMARY KEY'
                AND rc.RDB$RELATION_NAME = UPPER(?)
            ORDER BY
                seg.RDB$FIELD_POSITION
        ".

Section Rest.
Context {V D Cursor : Type} `{!Driver V D Cursor} `{!Queries V D Cursor}.

(** The end of [create], after the statement is executed. *)
Definition create_finish (cur : Cursor) : M (D:=D) (Cursor:=Cursor) (option V) :=
  last_id ← read_driver (λ d, from_option id None (cursor_lastrowid cur d));
  ac ← get_autocommit;
  (if ac : bool then commit else ret tt) ;;
  ret last_id.

Definition _execute_dml (sql : string) (params : option (gmap string V)) : M (D:=D) (Cursor:=Cursor) Z :=
  cur ← call cnn_cursor;
  set_cursor (Some cur) ;;
  execute_converted cur sql params ;;
  affected_rows ← read_driver (cursor_rowcount cur);
  ac ← get_autocommit;
  (if ac : bool then commit else ret tt) ;;
  ret affected_rows.

Definition update (sql : string) (params : option (gmap string V)) : M (D:=D) (Cursor:=Cursor) Z :=
  _execute_dml sql params.

Definition delete (sql : string) (params : option (gmap string V)) : M (D:=D) (Cursor:=Cursor) Z :=
  _execute_dml sql params.

(** [[dict(zip(col_names, row)) for row in rows]]. *)
Definition record_of (col_names : list string) (row : V * list V) : gmap string V :=
  py_dict (zip col_names (row.1 :: row.2)).

Definition read (sql : string) (params : option (gmap string V)) (onlyFirstRow : bool)
  : M (D:=D) (Cursor:=Cursor) (read_result V) :=
  cur ← call cnn_cursor;
  set_cursor (Some cur) ;;
  execute_converted cur sql params ;;
  rows ← call (cursor_fetchall cur);
  description ← read_driver (cursor_description cur);
  col_names ←
    match description with
    | Some names => ret (strip <$> names)
    | None => raise (TypeError "'NoneType' object is not iterable")
    end;
  let result := record_of col_names <$> rows in
  call (cursor_close cur) ;;
  set_cursor None ;;
  ret (if onlyFirstRow then FirstRecord (head result) else Records result).

(** [cur] is a local of the method: the slot [_cursor] is not used. *)
Definition getPrimaryKey (table : V) : M (D:=D) (Cursor:=Cursor) (primary_key V) :=
  cur ← call cnn_cursor;
  call (cursor_execute cur primary_key_sql (PSeq [table])) ;;
  rows ← call (cursor_fetchall cur);
  let cols := fst <$> rows in
  call (cursor_close cur) ;;
  ret (match cols with
       | [] => NoKey
       | [c] => KeyColumn c
       | _ => KeyColumns cols
       end).

(** [__del__] of an object whose [__init__] has returned: the attribute
    [cnn] is there and, like a cursor, truthy. *)
Definition __del__ : M (D:=D) (Cursor:=Cursor) unit :=
  try_except_Exception_pass
    (c ← get_cursor;
     match c with
     | Some cur => try_except_Exception_pass (call (cursor_close cur))
     | None => ret tt
     end ;;
     call cnn_close).

End Rest.

End CnnRest.

(** *** What a clause asks of its value source *)
Module WhereKeys.
Import Re SqlBuilder.

Section Keys.
Context {V : Type}.

(** The text the loop writes for the condition [c] after the conditions
    [pre]. *)
Definition fragment (pre : list (condition V)) (c : condition V) : string :=
  match value c with
  | VNone =>
      connective (logicalOperator c) +:+ " " +:+ quoted (paramName c) +:+ " "
        +:+ comparisonOperator c
  | VScalar _ => scalar_fragment c
  | VList [] => "   1"
  | VList l =>
      connective (logicalOperator c) +:+ " " +:+ quoted (paramName c) +:+ " "
        +:+ in_operator (comparisonOperator c)
        +:+ list_group (aliases (paramName c) (taken pre (paramName c)) (length l))
  end.

(** The placeholder names of that text. *)
Definition keys_of (pre : list (condition V)) (c : condition V) : list string :=
  match value c with
  | VNone => []
  | VScalar _ => [param_alias (paramName c)]
  | VList l => aliases (paramName c) (taken pre (paramName c)) (length l)
  end.

Fixpoint clause_from (pre conds : list (condition V)) : string :=
  match conds with
  | [] => EmptyString
  | c :: conds' => fragment pre c +:+ clause_from (pre ++ [c]) conds'
  end.

Fixpoint keys_from (pre conds : list (condition V)) : list string :=
  match conds with
  | [] => []
  | c :: conds' => keys_of pre c ++ keys_from (pre ++ [c]) conds'
  end.

(** The keys a value source needs for the clause of [conds]. *)
Definition where_keys (conds : list (condition V)) : list string :=
  keys_from [] conds.

End Keys.

(** A column name that cannot be read as part of a placeholder, and gives
    one. *)
Definition plain_name (k : string) : Prop :=
  k ≠ EmptyString ∧ PyStr.count_char "%" k = 0 ∧ PyStr.count_char ")" k = 0.

End WhereKeys.

(** *** More concrete inputs *)
Module MoreExamples.
Import Cnn CnnRest.

(** A driver that answers every query with the two rows it is given in
    its state, under two padded column names, and never fails. *)
#[global] Instance two_columns : Driver Z (list (Z * list Z)) nat := {|
  cnn_cursor d := (d, Ok 0%nat);
  cnn_commit d := (d, Ok tt);
  cnn_rollback d := (d, Ok tt);
  cursor_execute _ _ _ d := (d, Ok tt);
  cursor_executemany _ _ _ d := (d, Ok tt);
  cursor_close _ d := (d, Ok tt);
  cursor_lastrowid _ _ := None
|}.

#[global] Instance two_columns_queries : Queries Z (list (Z * list Z)) nat := {|
  cnn_close d := (d, Ok tt);
  cursor_rowcount _ d := Z.of_nat (length d);
  cursor_fetchall _ d := (d, Ok d);
  cursor_description _ _ := Some ["ID   "; "N    "]
|}.

(** The queries that go with the driver [Examples.failing_close]. *)
#[global] Instance failing_close_queries : Queries Z bool nat := {|
  cnn_close (d : bool) := (negb d, Ok tt);
  cursor_rowcount _ _ := 0%Z;
  cursor_fetchall _ d := (d, Ok []);
  cursor_description _ _ := Some []
|}.

Definition closed_object : cnn nat := CnnObj false None.

(** The two rows the driver [two_columns] is given. *)
Definition two_rows : list (Z * list Z) := [(1%Z, [2%Z]); (3%Z, [4%Z])].

(** A value source that binds [x] and a name no template here refers to. *)
Definition x_and_y : gmap string Z := {["x" := 5%Z; "y" := 6%Z]}.

(** A row for the columns [a] and [b]. *)
Definition a_and_b : gmap string Z := {["a" := 1%Z; "b" := 2%Z]}.

(** A scalar condition followed by a list condition, and a value source
    keyed by the names of their placeholders. *)
Definition scalar_then_list : list (SqlBuilder.condition Z) :=
  [SqlBuilder.Condition "id" None "=" (SqlBuilder.VScalar 5%Z);
   SqlBuilder.Condition "n" (Some "AND") "IN" (SqlBuilder.VList [1%Z; 2%Z])].

Definition scalar_then_list_source : gmap string Z :=
  {["param_id" := 5%Z; "param_n_0" := 1%Z; "param_n_1" := 2%Z]}.

(** A driver that has no cursor to give, and its queries. *)
#[global] Instance no_cursor : Driver Z unit nat := {|
  cnn_cursor d := (d, Raise (DriverError "no cursor"));
  cnn_commit d := (d, Ok tt);
  cnn_rollback d := (d, Ok tt);
  cursor_execute _ _ _ d := (d, Ok tt);
  cursor_executemany _ _ _ d := (d, Ok tt);
  cursor_close _ d := (d, Ok tt);
  cursor_lastrowid _ _ := None
|}.

#[global] Instance no_cursor_queries : Queries Z unit nat := {|
  cnn_close d := (d, Ok tt);
  cursor_rowcount _ _ := 0%Z;
  cursor_fetchall _ d := (d, Ok []);
  cursor_description _ _ := None
|}.

(** A driver whose cursors are interrupted while they close: the
    exception is a [BaseException] that is not an [Exception].  Its state
    counts the commits and rollbacks that went through. *)
#[global] Instance interrupted_close : Driver Z Z nat := {|
  cnn_cursor d := (d, Ok 0%nat);
  cnn_commit d := ((d + 1)%Z, Ok tt);
  cnn_rollback d := ((d + 1)%Z, Ok tt);
  cursor_execute _ _ _ d := (d, Ok tt);
  cursor_executemany _ _ _ d := (d, Ok tt);
  cursor_close _ d := (d, Raise (BaseOnly "KeyboardInterrupt"));
  cursor_lastrowid _ _ := None
|}.

(** A driver whose state counts the statements executed, a commit adding
    100, and whose cursors show that state as [lastrowid]. *)
#[global] Instance counting : Driver Z N nat := {|
  cnn_cursor d := (d, Ok 0%nat);
  cnn_commit d := ((d + 100)%N, Ok tt);
  cnn_rollback d := (d, Ok tt);
  cursor_execute _ _ _ d := ((d + 1)%N, Ok tt);
  cursor_executemany _ _ _ d := ((d + 1)%N, Ok tt);
  cursor_close _ d := (d, Ok tt);
  cursor_lastrowid _ d := Some (Some (Z.of_N d))
|}.

(** A template with one placeholder and a batch of two rows for it. *)
Definition insert_a : string := "INSERT INTO t (a) VALUES(%(a)s)".

Definition batch_of_two : list (gmap string Z) := [{["a" := 1%Z]}; {["a" := 2%Z]}].

End MoreExamples.

(** ** Part II: properties *)

(** *** Strings *)
Section StringFacts.
Import PyStr.

Lemma sapp_cons (a : ascii) (s t : string) : String a s +:+ t = String a (s +:+ t).
Proof. reflexivity. Qed.

Lemma sapp_nil_r (s : string) : s +:+ EmptyString = s.
Proof. induction s as [|a s IH]; [done|]. by rewrite sapp_cons, IH. Qed.

Lemma sapp_assoc (s t u : string) : (s +:+ t) +:+ u = s +:+ t +:+ u.
Proof. induction s as [|a s IH]; [done|]. by rewrite !sapp_cons, IH. Qed.

Lemma slength_app (s t : string) :
  String.length (s +:+ t) = String.length s + String.length t.
Proof. induction s as [|a s IH]; [done|]. rewrite sapp_cons. simpl. by rewrite IH. Qed.

Lemma count_char_app (c : ascii) (s t : string) :
  count_char c (s +:+ t) = count_char c s + count_char c t.
Proof.
  induction s as [|a s IH]; [done|].
  rewrite sapp_cons. simpl. rewrite IH. lia.
Qed.

Lemma drop_app_length (s t : string) : drop (String.length s) (s +:+ t) = t.
Proof. induction s as [|a s IH]; [by destruct t|]. by rewrite sapp_cons. Qed.

Lemma take_app_length (s t : string) : take (String.length s) (s +:+ t) = s.
Proof.
  induction s as [|a s IH]; [by destruct t|].
  rewrite sapp_cons. simpl. by rewrite IH.
Qed.

Lemma drop_0 (s : string) : drop 0 s = s.
Proof. by destruct s. Qed.

Lemma slice_middle (pre gap s : string) :
  slice (pre +:+ gap +:+ s) (String.length pre) (String.length pre + String.length gap) = gap.
Proof.
  unfold slice. rewrite drop_app_length.
  replace (String.length pre + String.length gap - String.length pre)
    with (String.length gap) by lia.
  apply take_app_length.
Qed.

Lemma join_cons (a : string) (l : list string) :
  join EmptyString (a :: l) = a +:+ join EmptyString l.
Proof. destruct l; simpl; [by rewrite sapp_nil_r|done]. Qed.

Lemma prefix_app (p s : string) : String.prefix p (p +:+ s) = true.
Proof.
  induction p as [|a p IH]; [by destruct s|].
  rewrite sapp_cons. simpl. by destruct (ascii_dec a a).
Qed.

Lemma contains_prefix (sub s : string) :
  String.prefix sub s = true → contains sub s = true.
Proof. intros H. destruct s; simpl in *; rewrite H; done. Qed.

Lemma contains_cons (sub : string) (a : ascii) (s : string) :
  contains sub s = true → contains sub (String a s) = true.
Proof. intros H. simpl. rewrite H. by rewrite orb_true_r. Qed.

End StringFacts.

(** *** The pattern and its scan *)
Section RegexFacts.
Import PyStr Re SqlBuilder.

Lemma span_no_rparen_spec (s run rest : string) :
  span_no_rparen s = (run, rest) →
  s = run +:+ rest ∧ count_char ")" run = 0.
Proof.
  revert run rest. induction s as [|a s IH]; intros run rest; simpl.
  - by intros [= <- <-].
  - destruct (Ascii.eqb_spec a ")") as [->|Hne].
    + by intros [= <- <-].
    + destruct (span_no_rparen s) as [run' rest'] eqn:E.
      intros [= <- <-]. destruct (IH _ _ eq_refl) as [-> Hc].
      split; [done|]. simpl.
      destruct (Ascii.eqb_spec a ")"); [done|]. by rewrite Hc.
Qed.

Lemma span_no_rparen_app (name rest : string) :
  count_char ")" name = 0 →
  span_no_rparen (name +:+ String ")" rest) = (name, String ")" rest).
Proof.
  induction name as [|a name IH]; [done|].
  rewrite sapp_cons. simpl.
  destruct (Ascii.eqb_spec a ")"); [done|].
  intros Hc. by rewrite IH.
Qed.

Lemma match_here_sound (s name rest : string) :
  match_here s = Some (name, rest) →
  s = pyformat name +:+ rest ∧ name ≠ EmptyString ∧ count_char ")" name = 0.
Proof.
  destruct s as [|a [|b body]]; [done| |].
  { destruct a as [[] [] [] [] [] [] [] []]; done. }
  destruct a as [[] [] [] [] [] [] [] []]; try done.
  destruct b as [[] [] [] [] [] [] [] []]; try done.
  simpl. destruct (span_no_rparen body) as [run after] eqn:E.
  apply span_no_rparen_spec in E as [-> Hc].
  destruct run as [|a name']; [done|].
  destruct after as [|c [|d rest']]; [done| |].
  { destruct c as [[] [] [] [] [] [] [] []]; done. }
  destruct c as [[] [] [] [] [] [] [] []]; try done.
  destruct d as [[] [] [] [] [] [] [] []]; try done.
  intros [= <- <-]. split; [|done].
  unfold pyformat. by rewrite !sapp_assoc.
Qed.

Lemma match_here_pyformat (name rest : string) :
  name ≠ EmptyString → count_char ")" name = 0 →
  match_here (pyformat name +:+ rest) = Some (name, rest).
Proof.
  intros Hne Hc. unfold pyformat. rewrite !sapp_assoc.
  change (match_here (String "%" (String "(" (name +:+ String ")" (String "s" rest)))) = Some (name, rest)).
  unfold match_here. rewrite span_no_rparen_app by done.
  by destruct name.
Qed.

Lemma match_here_other (a : ascii) (s : string) :
  a ≠ "%"%char → match_here (String a s) = None.
Proof.
  intros Hne. destruct a as [[] [] [] [] [] [] [] []]; done.
Qed.

Lemma match_here_prefix (s : string) (r : string * string) :
  match_here s = Some r → String.prefix "%(" s = true.
Proof.
  destruct r as [name rest]. intros [-> _]%match_here_sound.
  unfold pyformat. rewrite !sapp_assoc. apply prefix_app.
Qed.

Lemma match_here_length (s name rest : string) :
  match_here s = Some (name, rest) →
  String.length s = String.length name + 4 + String.length rest.
Proof.
  intros [-> _]%match_here_sound. unfold pyformat.
  rewrite !slength_app. simpl. lia.
Qed.

(** The fuel of [finditer] is enough: any larger amount gives the same
    matches. *)
Lemma finditer_from_fuel (fuel1 fuel2 pos : nat) (s : string) :
  String.length s ≤ fuel1 → String.length s ≤ fuel2 →
  finditer_from fuel1 pos s = finditer_from fuel2 pos s.
Proof.
  revert fuel2 pos s. induction fuel1 as [|fuel1 IH]; intros fuel2 pos s H1 H2.
  - destruct s; simpl in *; [|lia]. by destruct fuel2.
  - destruct fuel2 as [|fuel2]; [destruct s; simpl in *; [done|lia]|].
    destruct s as [|a s]; [done|].
    cbn [finditer_from].
    destruct (match_here (String a s)) as [[name rest]|] eqn:E.
    + apply match_here_length in E. simpl in *. f_equal. apply IH; lia.
    + simpl in *. apply IH; lia.
Qed.

(** The names found do not depend on the offset at which the scan starts. *)
Lemma finditer_from_names (fuel pos pos' : nat) (s : string) :
  m_group1 <$> finditer_from fuel pos s = m_group1 <$> finditer_from fuel pos' s.
Proof.
  revert pos pos' s. induction fuel as [|fuel IH]; intros pos pos' s; [done|].
  destruct s as [|a s]; [done|]. cbn [finditer_from].
  destruct (match_here (String a s)) as [[name rest]|]; [|apply IH].
  rewrite !fmap_cons. f_equal. apply IH.
Qed.

Lemma finditer_from_contains (fuel pos : nat) (s : string) :
  finditer_from fuel pos s ≠ [] → contains "%(" s = true.
Proof.
  revert pos s. induction fuel as [|fuel IH]; intros pos s; [done|].
  destruct s as [|a s]; [done|]. cbn [finditer_from].
  destruct (match_here (String a s)) as [r|] eqn:E.
  - intros _. by apply contains_prefix, (match_here_prefix _ r).
  - intros H. apply contains_cons. by eapply IH.
Qed.

End RegexFacts.

(** *** Substitution over the matches *)
Section SubFacts.
Import PyStr Re SqlBuilder.

Lemma sub_loop_rebuild (fuel : nat) (pre gap s : string) :
  String.length s ≤ fuel →
  join EmptyString
    (sub_loop placeholder_of (pre +:+ gap +:+ s)
       (finditer_from fuel (String.length pre + String.length gap) s)
       (String.length pre))
  = gap +:+ s.
Proof.
  revert pre gap s. induction fuel as [|fuel IH]; intros pre gap s Hlen.
  { destruct s; simpl in Hlen; [|lia]. simpl. by rewrite drop_app_length. }
  destruct s as [|a s].
  { simpl. by rewrite drop_app_length. }
  cbn [finditer_from].
  destruct (match_here (String a s)) as [[name rest]|] eqn:E.
  - pose proof (match_here_length _ _ _ E) as Hl.
    apply match_here_sound in E as (E & _ & _).
    cbn [sub_loop m_start m_end]. rewrite !join_cons, slice_middle.
    unfold placeholder_of at 1. cbn [m_group1].
    rewrite E.
    pose proof (IH (pre +:+ gap +:+ pyformat name) EmptyString rest) as IH'.
    change (EmptyString +:+ rest) with rest in IH'.
    rewrite sapp_assoc, sapp_assoc in IH'. simpl in IH'. rewrite Nat.add_0_r in IH'.
    replace (String.length pre + String.length gap + (String.length name + 4))
      with (String.length (pre +:+ gap +:+ pyformat name)).
    2:{ unfold pyformat. rewrite !slength_app. simpl. lia. }
    rewrite IH'; [done|]. simpl in Hl, Hlen. lia.
  - replace (pre +:+ gap +:+ String a s)
      with (pre +:+ (gap +:+ String a EmptyString) +:+ s)
      by (by rewrite !sapp_assoc).
    replace (S (String.length pre + String.length gap))
      with (String.length pre + String.length (gap +:+ String a EmptyString))
      by (rewrite slength_app; simpl; lia).
    rewrite IH; [by rewrite sapp_assoc|]. simpl in Hlen. lia.
Qed.

(** Putting every placeholder back where its match was found gives the
    template again: the matches are placeholders of the template, in
    their order of appearance, and the text between them is the
    template's. *)
Lemma sub_placeholders (sql : string) : sub placeholder_of sql = sql.
Proof.
  unfold sub, finditer.
  exact (sub_loop_rebuild (String.length sql) EmptyString EmptyString sql (le_n _)).
Qed.

Lemma sub_loop_count (c : ascii) (f g : pymatch → string) (sql : string)
    (ms : list pymatch) (lp : nat) :
  count_char c (join EmptyString (sub_loop f sql ms lp))
    + sum_list (count_char c ∘ g <$> ms)
  = count_char c (join EmptyString (sub_loop g sql ms lp))
    + sum_list (count_char c ∘ f <$> ms).
Proof.
  revert lp. induction ms as [|m ms IH]; intros lp; [done|].
  cbn [sub_loop]. rewrite !join_cons, !count_char_app, !fmap_cons.
  cbn [sum_list sum_list_with]. specialize (IH (m_end m)). simpl. lia.
Qed.

Lemma sum_list_const_1 {A} (f : A → nat) (l : list A) :
  (∀ x, f x = 1) → sum_list (f <$> l) = length l.
Proof.
  intros Hf. induction l as [|x l IH]; [done|].
  rewrite fmap_cons. simpl. rewrite Hf. by rewrite IH.
Qed.

Lemma count_char_pyformat_qmark (name : string) :
  count_char "?" (pyformat name) = count_char "?" name.
Proof. unfold pyformat. rewrite !count_char_app. simpl. lia. Qed.

(** The ['?'] of the rewritten text are the new markers, one per match,
    and the ['?'] the template has outside its placeholders. *)
Lemma sub_qmark_count (sql : string) :
  count_char "?" (sub (λ _, "?") sql)
    + sum_list (count_char "?" <$> names_in_order sql)
  = length (finditer sql) + count_char "?" sql.
Proof.
  pose proof (sub_loop_count "?" (λ _, "?") placeholder_of sql (finditer sql) 0) as H.
  fold (sub (λ _, "?") sql) in H. fold (sub placeholder_of sql) in H.
  rewrite sub_placeholders in H.
  rewrite (sum_list_const_1 (count_char "?" ∘ (λ _, "?"))) in H by done.
  unfold names_in_order. rewrite <-list_fmap_compose.
  rewrite (list_fmap_ext (count_char "?" ∘ m_group1) (count_char "?" ∘ placeholder_of)
             (finditer sql)); [lia|].
  intros i m _. symmetry. apply count_char_pyformat_qmark.
Qed.

End SubFacts.

(** *** The translator [_convert_pyformat_to_qmark] *)
Section TranslatorFacts.
Import PyStr Re SqlBuilder Cnn.
Context {V : Type}.
Implicit Types (d : gmap string V) (sql : string) (ms : list pymatch).

Lemma convert_loop_ok sql d ms (st : scan_state) (vs : list V) :
  Forall2 (λ m v, d !! m_group1 m = Some v) ms vs →
  ∃ st', convert_loop sql d ms st = Ok st'
    ∧ values st' = values st ++ vs
    ∧ new_sql_parts st' ++ [drop (last_pos st') sql]
      = new_sql_parts st ++ sub_loop (λ _, "?") sql ms (last_pos st).
Proof.
  intros HF. revert st. induction HF as [|m v ms vs Hm _ IH]; intros st.
  - exists st. simpl. by rewrite app_nil_r.
  - cbn [convert_loop]. rewrite Hm.
    destruct (IH (ScanState
      (new_sql_parts st ++ [slice sql (last_pos st) (m_start m); "?"])
      (values st ++ [v]) (m_end m))) as (st' & -> & Hv & Hp).
    exists st'. split; [done|]. cbn in Hv, Hp. split.
    + by rewrite Hv, <-app_assoc.
    + rewrite Hp, <-app_assoc. done.
Qed.

Lemma convert_loop_missing sql d ms1 m ms2 (st : scan_state) :
  Forall (λ m', is_Some (d !! m_group1 m')) ms1 →
  d !! m_group1 m = None →
  convert_loop sql d (ms1 ++ m :: ms2) st = Raise (missing_parameter (m_group1 m) sql).
Proof.
  intros HF Hm. revert st. induction HF as [|m' ms1 [v Hv] _ IH]; intros st.
  - simpl. by rewrite Hm.
  - rewrite <-app_comm_cons. cbn [convert_loop]. rewrite Hv. apply IH.
Qed.

(** Either every name is bound, or there is a first one that is not. *)
Lemma bound_or_first_missing {A} (f : A → option V) (l : list A) :
  (∃ vs, Forall2 (λ x v, f x = Some v) l vs)
  ∨ (∃ l1 x l2, l = l1 ++ x :: l2 ∧ Forall (λ y, is_Some (f y)) l1 ∧ f x = None).
Proof.
  induction l as [|x l IH]; [left; by exists []|].
  destruct (f x) as [v|] eqn:Hx.
  - destruct IH as [[vs Hvs]|(l1 & y & l2 & -> & Hl1 & Hy)].
    + left. exists (v :: vs). by constructor.
    + right. exists (x :: l1), y, l2. split_and!; [done| |done].
      constructor; [by rewrite Hx|done].
  - right. exists [], x, l. by split_and!.
Qed.

Lemma size_non_empty d : d ≠ ∅ → (size d =? 0) = false.
Proof. intros Hd. apply Nat.eqb_neq. by rewrite map_size_empty_iff. Qed.

Lemma names_contains sql : names_in_order sql ≠ [] → contains "%(" sql = true.
Proof.
  unfold names_in_order, finditer. intros H.
  apply (finditer_from_contains (String.length sql) 0).
  intros E. by rewrite E in H.
Qed.

(** The translator on a non-empty value source, once past the ["%("] gate. *)
Lemma convert_scanned sql d :
  d ≠ ∅ → contains "%(" sql = true →
  _convert_pyformat_to_qmark sql (Some d) =
    match convert_loop sql d (finditer sql) (ScanState [] [] 0) with
    | Raise e => Raise e
    | Ok st =>
        Ok (join EmptyString (new_sql_parts st ++ [drop (last_pos st) sql]),
            PSeq (values st))
    end.
Proof.
  intros Hd Hc. unfold _convert_pyformat_to_qmark.
  by rewrite size_non_empty, Hc.
Qed.

Lemma convert_bound sql d (vs : list V) :
  d ≠ ∅ → contains "%(" sql = true →
  Forall2 (λ name v, d !! name = Some v) (names_in_order sql) vs →
  _convert_pyformat_to_qmark sql (Some d) = Ok (sub (λ _, "?") sql, PSeq vs).
Proof.
  intros Hd Hc HF. rewrite convert_scanned by done.
  unfold names_in_order in HF. apply Forall2_fmap_l in HF.
  destruct (convert_loop_ok sql d (finditer sql) (ScanState [] [] 0) vs HF)
    as (st' & -> & Hv & Hp).
  simpl in Hv, Hp. by rewrite Hv, Hp.
Qed.

Lemma convert_first_missing sql d (names1 : list string) (name : string)
    (names2 : list string) :
  d ≠ ∅ →
  names_in_order sql = names1 ++ name :: names2 →
  Forall (λ n, is_Some (d !! n)) names1 →
  d !! name = None →
  _convert_pyformat_to_qmark sql (Some d) = Raise (missing_parameter name sql).
Proof.
  intros Hd Hn H1 Hm.
  assert (contains "%(" sql = true) as Hc.
  { apply names_contains. rewrite Hn. by destruct names1. }
  rewrite convert_scanned by done.
  unfold names_in_order in Hn.
  apply fmap_app_inv in Hn as (ms1 & ms' & -> & Hn & E).
  destruct ms' as [|m ms2]; [done|]. rewrite fmap_cons in Hn.
  injection Hn as -> ->. rewrite E.
  rewrite convert_loop_missing; [done| |done].
  rewrite Forall_forall in H1. apply Forall_forall. intros m' Hm'.
  apply H1, list_elem_of_fmap. by exists m'.
Qed.

End TranslatorFacts.

Section TranslatorClaims.
Import PyStr Re SqlBuilder Cnn.
Context {V : Type}.
Implicit Types (d : gmap string V) (sql : string).

(** C1 (as amended).  For a template with at least one placeholder and a
    non-empty value source that binds every referenced name, the translator
    returns the template with each placeholder replaced by ['?'] (the
    matches are placeholders of the template: putting them back gives the
    template again) and a value sequence with one value per placeholder,
    the i-th value being the source's entry for the name of the i-th
    placeholder from the left.  The ['?'] characters of the returned text
    are these markers and the ['?'] the template has outside its
    placeholders: their number is the length of the value sequence plus the
    number of those, and equals it when the template has none of its own. *)
Theorem translation_binds_in_order sql d :
  names_in_order sql ≠ [] →
  d ≠ ∅ →
  Forall (λ name, is_Some (d !! name)) (names_in_order sql) →
  ∃ new_sql vals,
    _convert_pyformat_to_qmark sql (Some d) = Ok (new_sql, PSeq vals)
    ∧ new_sql = sub (λ _, "?") sql
    ∧ sql = sub placeholder_of sql
    ∧ length vals = length (names_in_order sql)
    ∧ (∀ i name, names_in_order sql !! i = Some name → vals !! i = d !! name)
    ∧ count_char "?" new_sql + sum_list (count_char "?" <$> names_in_order sql)
      = length vals + count_char "?" sql
    ∧ (count_char "?" sql = sum_list (count_char "?" <$> names_in_order sql) →
       count_char "?" new_sql = length vals).
Proof.
  intros Hn Hd Hall.
  destruct (bound_or_first_missing (λ name, d !! name) (names_in_order sql))
    as [[vs HF]|(l1 & x & l2 & E & _ & Hx)].
  2:{ rewrite E in Hall. apply Forall_app in Hall as [_ Hall].
      apply Forall_cons in Hall as [[v Hv] _]. congruence. }
  exists (sub (λ _, "?") sql), vs.
  assert (length vs = length (names_in_order sql)) as Hlen
    by (symmetry; by eapply Forall2_length).
  assert (count_char "?" (sub (λ _, "?") sql)
          + sum_list (count_char "?" <$> names_in_order sql)
          = length vs + count_char "?" sql) as Hcount.
  { rewrite sub_qmark_count, Hlen. unfold names_in_order. by rewrite length_fmap. }
  split_and!; [|done|by rewrite sub_placeholders|done| |done|lia].
  - apply convert_bound; [done|by apply names_contains|done].
  - intros i name Hi.
    destruct (Forall2_lookup_l _ _ _ _ _ HF Hi) as (v & -> & ->). done.
Qed.

Lemma convert_no_values sql :
  _convert_pyformat_to_qmark (V:=V) sql None = Ok (sql, PNone)
  ∧ _convert_pyformat_to_qmark (V:=V) sql (Some ∅) = Ok (sql, PNone).
Proof. split; [done|]. unfold _convert_pyformat_to_qmark. by rewrite map_size_empty. Qed.

(** Where the template does not contain ["%("], a non-empty value source
    comes back untouched. *)
Lemma pass_through_without_marker sql d :
  d ≠ ∅ → contains "%(" sql = false →
  _convert_pyformat_to_qmark sql (Some d) = Ok (sql, PDict d).
Proof.
  intros Hd Hc. unfold _convert_pyformat_to_qmark.
  by rewrite size_non_empty, Hc.
Qed.

(** Where the template contains ["%("] but no placeholder, the text comes
    back unchanged with an empty value sequence instead of the source. *)
Lemma pass_through_gate_miss sql d :
  d ≠ ∅ → contains "%(" sql = true → names_in_order sql = [] →
  _convert_pyformat_to_qmark sql (Some d) = Ok (sql, PSeq []).
Proof.
  intros Hd Hc Hn. rewrite (convert_bound sql d []); [|done|done|by rewrite Hn].
  unfold names_in_order in Hn. apply fmap_nil_inv in Hn.
  unfold sub. rewrite Hn. cbn [sub_loop join String.concat]. by rewrite drop_0.
Qed.

End TranslatorClaims.

(** The instance of C1 for a name used twice: two markers, both bound to the
    one value of the source. *)
Lemma translation_binds_in_order_witness :
  ∃ new_sql vals,
    Cnn._convert_pyformat_to_qmark Examples.twice_x (Some Examples.x_is_5)
      = Ok (new_sql, Cnn.PSeq vals)
    ∧ new_sql = Re.sub (λ _, "?") Examples.twice_x
    ∧ Examples.twice_x = Re.sub Re.placeholder_of Examples.twice_x
    ∧ length vals = length (Re.names_in_order Examples.twice_x)
    ∧ (∀ i name, Re.names_in_order Examples.twice_x !! i = Some name →
                 vals !! i = Examples.x_is_5 !! name)
    ∧ PyStr.count_char "?" new_sql
        + sum_list (PyStr.count_char "?" <$> Re.names_in_order Examples.twice_x)
      = length vals + PyStr.count_char "?" Examples.twice_x
    ∧ (PyStr.count_char "?" Examples.twice_x
         = sum_list (PyStr.count_char "?" <$> Re.names_in_order Examples.twice_x) →
       PyStr.count_char "?" new_sql = length vals).
Proof.
  apply (translation_binds_in_order Examples.twice_x Examples.x_is_5).
  - vm_compute. discriminate.
  - apply map_non_empty_singleton.
  - vm_compute. repeat constructor; eexists; reflexivity.
Defined.

Example translation_repeated_name :
  Cnn._convert_pyformat_to_qmark Examples.twice_x (Some Examples.x_is_5)
  = Ok ("u = ? OR v = ?", Cnn.PSeq [5%Z; 5%Z]).
Proof. vm_compute. reflexivity. Qed.

(** C1, as stated, fails where the template has a ['?'] of its own: here
    the returned text has two markers and the value sequence one value. *)
Lemma marker_count_counterexample :
  Re.names_in_order "u = ? AND v = %(x)s" = ["x"]
  ∧ ({["x" := 5%Z]} : gmap string Z) !! "x" = Some 5%Z
  ∧ Cnn._convert_pyformat_to_qmark "u = ? AND v = %(x)s" (Some {["x" := 5%Z]})
    = Ok ("u = ? AND v = ?", Cnn.PSeq [5%Z])
  ∧ PyStr.count_char "?" "u = ? AND v = ?" ≠ length [5%Z].
Proof. vm_compute. split_and!; [done..|lia]. Qed.

(** C4 fails at a template that contains ["%("] without any placeholder:
    the text comes back unchanged, but with an empty value sequence in
    place of the caller's value source. *)
Lemma pass_through_failing_input :
  Re.names_in_order "WHERE note LIKE '%(draft)%'" = []
  ∧ Cnn._convert_pyformat_to_qmark "WHERE note LIKE '%(draft)%'" (Some {["id" := 1%Z]})
    = Ok ("WHERE note LIKE '%(draft)%'", Cnn.PSeq [])
  ∧ Cnn._convert_pyformat_to_qmark "WHERE note LIKE '%(draft)%'" (Some {["id" := 1%Z]})
    ≠ Ok ("WHERE note LIKE '%(draft)%'", Cnn.PDict {["id" := 1%Z]}).
Proof. vm_compute. split_and!; done. Qed.

(** *** Placeholder names of a concatenation *)
Section NamesFacts.
Import PyStr Re.

Lemma names_other (a : ascii) (s : string) :
  a ≠ "%"%char → names_in_order (String a s) = names_in_order s.
Proof.
  intros Ha. unfold names_in_order, finditer. cbn [String.length finditer_from].
  rewrite match_here_other by done. apply finditer_from_names.
Qed.

Lemma names_skip (s t : string) :
  count_char "%" s = 0 → names_in_order (s +:+ t) = names_in_order t.
Proof.
  induction s as [|a s IH]; [done|]. simpl.
  destruct (Ascii.eqb_spec a "%") as [->|Ha]; [done|]. intros Hc.
  rewrite sapp_cons, names_other by done. by apply IH.
Qed.


Lemma names_pyformat (name rest : string) :
  name ≠ EmptyString → count_char ")" name = 0 →
  names_in_order (pyformat name +:+ rest) = name :: names_in_order rest.
Proof.
  intros Hne Hc. pose proof (match_here_pyformat name rest Hne Hc) as Hm.
  pose proof (match_here_length _ _ _ Hm) as Hl.
  unfold names_in_order, finditer.
  destruct (pyformat name +:+ rest) as [|a s] eqn:E; [done|].
  cbn [String.length finditer_from]. rewrite Hm, fmap_cons. cbn [m_group1].
  f_equal. rewrite (finditer_from_names _ _ 0).
  f_equal. apply finditer_from_fuel; simpl in Hl; lia.
Qed.

End NamesFacts.

(** *** [SqlBuilder.whereCondition] *)
Section WhereFacts.
Import PyStr Re SqlBuilder.
Context {V : Type}.
Implicit Types (c : condition V) (pre conds : list (condition V)).

Lemma where_loop_snoc pre c :
  where_loop (pre ++ [c]) = where_step (where_loop pre) c.
Proof. unfold where_loop. by rewrite fold_left_app. Qed.

Lemma connective_app (r : string) (lop : option string) :
  match lop with Some l => r +:+ " " +:+ l | None => r end = r +:+ connective lop.
Proof. destruct lop; simpl; [done|by rewrite sapp_nil_r]. Qed.

Lemma where_step_null (r : string) (used : list string) name lop cop :
  where_step (r, used) (Condition name lop cop (VNone (V:=V)))
  = (r +:+ connective lop +:+ " " +:+ quoted name +:+ " " +:+ cop, used).
Proof.
  unfold where_step. cbn [value paramName logicalOperator comparisonOperator].
  rewrite connective_app. by rewrite sapp_nil_r, !sapp_assoc.
Qed.

Lemma where_step_scalar (r : string) (used : list string) name lop cop (v : V) :
  where_step (r, used) (Condition name lop cop (VScalar v))
  = (r +:+ connective lop +:+ " " +:+ quoted name +:+ " " +:+ cop +:+ " "
       +:+ pyformat (param_alias name), used).
Proof.
  unfold where_step. cbn [value paramName logicalOperator comparisonOperator].
  rewrite connective_app. by rewrite !sapp_assoc.
Qed.

Lemma where_step_empty_list (r : string) (used : list string) name lop cop :
  where_step (r, used) (Condition name lop cop (VList (V:=V) []))
  = (r +:+ "   1", used).
Proof.
  unfold where_step. cbn [value paramName logicalOperator comparisonOperator].
  cbn. rewrite !sapp_assoc. reflexivity.
Qed.

End WhereFacts.

Section WhereClaims.
Import PyStr Re SqlBuilder Cnn.
Context {V : Type}.
Implicit Types (c : condition V) (pre conds : list (condition V)) (d : gmap string V).

Lemma count_percent_quoted (name : string) :
  count_char "%" (quoted name) = count_char "%" name.
Proof. unfold quoted. rewrite !count_char_app. simpl. lia. Qed.

Lemma fold_scalars conds (r : string) (used : list string) :
  Forall is_scalar conds →
  fold_left where_step conds (r, used) = (r +:+ scalar_clause conds, used).
Proof.
  intros HF. revert r. induction HF as [|c conds Hc _ IH]; intros r.
  - simpl. by rewrite sapp_nil_r.
  - destruct c as [name lop cop [|v|l]]; [done| |done].
    cbn [fold_left]. rewrite where_step_scalar, IH.
    unfold scalar_clause at 2, scalar_fragment.
    cbn [foldr paramName logicalOperator comparisonOperator].
    by rewrite !sapp_assoc.
Qed.

Lemma names_scalar_clause conds :
  Forall plain conds →
  names_in_order (scalar_clause conds) = (λ c, param_alias (paramName c)) <$> conds.
Proof.
  induction 1 as [|c conds (Hn & Hp & Hc & Hl) _ IH]; [done|].
  cbn [scalar_clause foldr]. fold (scalar_clause conds).
  unfold scalar_fragment.
  replace ((connective (logicalOperator c) +:+ " " +:+ quoted (paramName c) +:+ " "
              +:+ comparisonOperator c +:+ " " +:+ pyformat (param_alias (paramName c)))
             +:+ scalar_clause conds)
    with ((connective (logicalOperator c) +:+ " " +:+ quoted (paramName c) +:+ " "
              +:+ comparisonOperator c +:+ " ")
            +:+ pyformat (param_alias (paramName c)) +:+ scalar_clause conds)
    by (by rewrite !sapp_assoc).
  rewrite names_skip.
  2:{ rewrite !count_char_app, count_percent_quoted, Hn, Hc, Hl. done. }
  rewrite names_pyformat, IH; [done|done|].
  unfold param_alias. rewrite count_char_app, Hp. done.
Qed.


(** C6: what the code does with an empty list.  The fragment is the bare
    literal [1], and the condition's own connective is dropped with the
    rest of it, so that after an earlier condition the two stand side by
    side with nothing between them. *)
Theorem empty_list_drops_connective :
  (∀ pre name lop cop,
     where_loop (pre ++ [Condition name lop cop (VList (V:=V) [])])
     = ((where_loop pre).1 +:+ "   1", (where_loop pre).2))
  ∧ (∀ v : V,
       whereCondition [Condition "a" None "=" (VScalar v);
                       Condition "b" (Some "AND") "IN" (VList [])]
       = "WHERE " +:+ quoted "a" +:+ " = %(param_a)s   1")
  ∧ contains "AND" ("WHERE " +:+ quoted "a" +:+ " = %(param_a)s   1") = false.
Proof.
  split_and!; [|done..].
  intros pre name lop cop. rewrite where_loop_snoc.
  destruct (where_loop pre) as [r used]. apply where_step_empty_list.
Qed.

(** C9 (as amended).  For scalar, non-null conditions whose texts are plain,
    the placeholders of the built clause are named [param_<paramName>], one
    per condition in order, and a value source with these keys is enough
    for the translation of the clause to succeed.  The marker of each
    condition is bound to the entry the source has under the condition's
    alias; so the values bound are the conditions' own values, in order,
    whenever the source holds under each alias the value of the condition.
    Two conditions on one column share a placeholder, and are bound to one
    value. *)
Theorem scalar_conditions_bind_by_alias conds d :
  Forall is_scalar conds →
  Forall plain conds →
  Forall (λ c, is_Some (d !! param_alias (paramName c))) conds →
  names_in_order (whereCondition conds) = (λ c, param_alias (paramName c)) <$> conds
  ∧ ∃ sql' b,
      _convert_pyformat_to_qmark (whereCondition conds) (Some d) = Ok (sql', b)
      ∧ (conds ≠ [] →
         ∃ vals, b = PSeq vals
           ∧ Forall2 (λ c v, d !! param_alias (paramName c) = Some v) conds vals
           ∧ (Forall (λ c, VScalar <$> d !! param_alias (paramName c) = Some (value c))
                conds →
              VScalar <$> vals = value <$> conds)
           ∧ (∀ i j ci cj vi vj,
                conds !! i = Some ci → conds !! j = Some cj →
                paramName ci = paramName cj →
                vals !! i = Some vi → vals !! j = Some vj → vi = vj)).
Proof.
  intros Hs Hp Hd.
  assert (names_in_order (whereCondition conds)
          = (λ c, param_alias (paramName c)) <$> conds) as Hnames.
  { unfold whereCondition, where_loop. rewrite fold_scalars by done.
    cbn [fst]. rewrite names_skip by done. by apply names_scalar_clause. }
  split; [done|].
  destruct conds as [|c conds].
  { exists "WHERE". cbn. destruct (size d =? 0); eexists; (split; [done|done]). }
  assert (d ≠ ∅) as Hne.
  { intros ->. apply Forall_cons in Hd as [[v Hv] _]. by rewrite lookup_empty in Hv. }
  destruct (bound_or_first_missing (λ c, d !! param_alias (paramName c)) (c :: conds))
    as [[vs HF]|(l1 & x & l2 & E & _ & Hx)].
  2:{ rewrite E in Hd. apply Forall_app in Hd as [_ Hd].
      apply Forall_cons in Hd as [[v Hv] _]. congruence. }
  exists (sub (λ _, "?") (whereCondition (c :: conds))), (PSeq vs).
  split.
  { apply convert_bound; [done| |].
    - apply names_contains. by rewrite Hnames.
    - rewrite Hnames. by apply Forall2_fmap_l. }
  intros _. exists vs. split_and!; [done|done| |].
  - intros Hown. clear Hnames Hs Hp Hd.
    induction HF as [|c' v cs vs' Hv _ IH]; [done|].
    apply Forall_cons in Hown as [Hc' Hown]. rewrite Hv in Hc'. simpl in Hc'.
    rewrite !fmap_cons. f_equal; [congruence|by apply IH].
  - intros i j ci cj vi vj Hi Hj Hname Hvi Hvj.
    pose proof (Forall2_lookup_lr _ _ _ _ _ _ HF Hi Hvi) as H1.
    pose proof (Forall2_lookup_lr _ _ _ _ _ _ HF Hj Hvj) as H2.
    cbn beta in H1, H2. rewrite Hname in H1. congruence.
Qed.

End WhereClaims.

(** C8: [update] rejects the empty mapping, [insert] does not: it builds a
    statement with empty column and value lists.  Both reject what is not a
    mapping, and [insert] the empty batch. *)
Theorem insert_accepts_empty_mapping (table : string) :
  SqlBuilder.insert table (SqlBuilder.DataDict [])
  = Ok ("INSERT INTO " +:+ SqlBuilder.quoted table +:+ " () VALUES()")
  ∧ SqlBuilder.insert table (SqlBuilder.DataList [[]])
    = Ok ("INSERT INTO " +:+ SqlBuilder.quoted table +:+ " () VALUES()")
  ∧ SqlBuilder.update table (SqlBuilder.DataDict [])
    = Raise (ValueError "Data for update() must be non-empty dict")
  ∧ SqlBuilder.insert table (SqlBuilder.DataList [])
    = Raise (ValueError "Data for insert() must be dict or non-empty list[dict]")
  ∧ SqlBuilder.insert table SqlBuilder.DataOther
    = Raise (ValueError "Data for insert() must be dict or non-empty list[dict]")
  ∧ SqlBuilder.update table SqlBuilder.DataOther
    = Raise (ValueError "Data for update() must be non-empty dict").
Proof. split_and!; reflexivity. Qed.



(** The instance of C9 for two scalar conditions. *)
Lemma scalar_conditions_bind_by_alias_witness :
  Re.names_in_order (SqlBuilder.whereCondition Examples.two_scalars)
  = (λ c, SqlBuilder.param_alias (SqlBuilder.paramName c)) <$> Examples.two_scalars
  ∧ ∃ sql' b,
      Cnn._convert_pyformat_to_qmark (SqlBuilder.whereCondition Examples.two_scalars)
        (Some Examples.two_scalars_source) = Ok (sql', b)
      ∧ (Examples.two_scalars ≠ [] →
         ∃ vals, b = Cnn.PSeq vals
           ∧ Forall2 (λ c v, Examples.two_scalars_source
                               !! SqlBuilder.param_alias (SqlBuilder.paramName c) = Some v)
               Examples.two_scalars vals
           ∧ (Forall (λ c, SqlBuilder.VScalar
                             <$> Examples.two_scalars_source
                                   !! SqlBuilder.param_alias (SqlBuilder.paramName c)
                           = Some (SqlBuilder.value c))
                Examples.two_scalars →
              SqlBuilder.VScalar <$> vals = SqlBuilder.value <$> Examples.two_scalars)
           ∧ (∀ i j ci cj vi vj,
                Examples.two_scalars !! i = Some ci → Examples.two_scalars !! j = Some cj →
                SqlBuilder.paramName ci = SqlBuilder.paramName cj →
                vals !! i = Some vi → vals !! j = Some vj → vi = vj)).
Proof.
  apply (scalar_conditions_bind_by_alias Examples.two_scalars Examples.two_scalars_source).
  - repeat constructor.
  - repeat constructor.
  - vm_compute. repeat constructor; eexists; reflexivity.
Defined.

(** The two conditions [a > 1 AND a < 5] share the placeholder
    [%(param_a)s]: whatever the source holds under [param_a] is bound to
    both markers. *)
Example same_column_shares_value :
  Cnn._convert_pyformat_to_qmark
    (SqlBuilder.whereCondition
       [SqlBuilder.Condition "a" None ">" (SqlBuilder.VScalar 1%Z);
        SqlBuilder.Condition "a" (Some "AND") "<" (SqlBuilder.VScalar 5%Z)])
    (Some {["param_a" := 1%Z]})
  = Ok ("WHERE " +:+ SqlBuilder.quoted "a" +:+ " > ? AND " +:+ SqlBuilder.quoted "a"
          +:+ " < ?",
        Cnn.PSeq [1%Z; 1%Z]).
Proof. vm_compute. reflexivity. Qed.

(** C9, as stated, fails: the placeholder of a scalar condition on column
    [id] is named [param_id], and a value source keyed by [id] does not
    bind it. *)
Lemma scalar_raw_name_counterexample :
  Examples.by_id_clause = "WHERE " +:+ SqlBuilder.quoted "id" +:+ " = %(param_id)s"
  ∧ Cnn._convert_pyformat_to_qmark Examples.by_id_clause (Some {["id" := 5%Z]})
    = Raise (Cnn.missing_parameter "param_id" Examples.by_id_clause).
Proof. vm_compute. split; reflexivity. Qed.

(** *** Aliases of list-valued conditions *)
Section AliasFacts.
Import PyStr Re SqlBuilder.

Lemma pretty_N_go_no_underscore (x : N) (s : string) :
  count_char "_" s = 0 → count_char "_" (pretty_N_go x s) = 0.
Proof.
  revert s. induction (N.lt_wf_0 x) as [x _ IH]; intros s Hs.
  assert (x = 0 ∨ 0 < x)%N as [->|Hx] by lia.
  - by rewrite pretty_N_go_0.
  - rewrite pretty_N_go_step by done. apply IH.
    { by apply N.div_lt. }
    simpl. rewrite Hs. unfold pretty_N_char. by repeat case_match.
Qed.

Lemma pretty_nat_no_underscore (k : nat) : count_char "_" (pretty k) = 0.
Proof.
  unfold pretty, pretty_nat, pretty, pretty_N.
  case_decide; [done|]. by apply pretty_N_go_no_underscore.
Qed.

(** A text ending in an underscore and a number splits in one way only. *)
Lemma underscore_suffix_inj (x y e f : string) :
  count_char "_" e = 0 → count_char "_" f = 0 →
  x +:+ "_" +:+ e = y +:+ "_" +:+ f → x = y ∧ e = f.
Proof.
  intros He Hf. revert y. induction x as [|a x IH]; intros [|b y] H.
  - change (String "_" e = String "_" f) in H. by injection H as ->.
  - change (String "_" e = String b (y +:+ "_" +:+ f)) in H.
    injection H as _ ->. rewrite count_char_app in He. simpl in He. lia.
  - change (String a (x +:+ "_" +:+ e) = String "_" f) in H.
    injection H as _ <-. rewrite count_char_app in Hf. simpl in Hf. lia.
  - rewrite !sapp_cons in H. injection H as -> H.
    destruct (IH _ H) as [-> ->]. done.
Qed.

Lemma in_param_name_inj (name name' : string) (k k' : nat) :
  in_param_name (param_alias name) k = in_param_name (param_alias name') k' →
  name = name' ∧ k = k'.
Proof.
  unfold in_param_name, param_alias. rewrite !sapp_assoc.
  intros H%(inj (String.app "param_")).
  apply underscore_suffix_inj in H as [-> H]; try apply pretty_nat_no_underscore.
  split; [done|]. by apply (inj pretty).
Qed.

Lemma in_param_name_index_inj (paramAlias : string) :
  Inj (=) (=) (in_param_name paramAlias).
Proof.
  intros k k' H. unfold in_param_name in H.
  apply (inj (String.app paramAlias)), (inj (String.app "_")) in H.
  by apply (inj pretty).
Qed.

(** The loop [while ... in usedParamNames] leaves at the least index whose
    name is not in the list, and the fuel given to it is enough. *)
Lemma next_index_from_least (paramAlias : string) (used : list string) (fuel k : nat) :
  (∀ j, j < k → in_param_name paramAlias j ∈ used) →
  length used ≤ k + fuel →
  (in_param_name paramAlias (next_index_from fuel paramAlias used k) ∉ used)
  ∧ (∀ j, j < next_index_from fuel paramAlias used k → in_param_name paramAlias j ∈ used).
Proof.
  revert k. induction fuel as [|fuel IH]; intros k Hk Hlen.
  - simpl. split; [|done]. intros Hin.
    assert (NoDup (in_param_name paramAlias <$> seq 0 (S k))) as Hnd.
    { pose proof (in_param_name_index_inj paramAlias) as Hinj.
      apply (NoDup_fmap_2 _), NoDup_seq. }
    assert (in_param_name paramAlias <$> seq 0 (S k) ⊆+ used) as Hsub.
    { apply NoDup_submseteq; [done|]. intros x (j & -> & Hj)%list_elem_of_fmap.
      apply elem_of_seq in Hj.
      destruct (decide (j = k)) as [->|]; [done|]. apply Hk. lia. }
    apply submseteq_length in Hsub. rewrite length_fmap, length_seq in Hsub. lia.
  - simpl. case_bool_decide as Hin; [|done].
    apply IH; [|lia]. intros j Hj.
    destruct (decide (j = k)) as [->|]; [done|]. apply Hk. lia.
Qed.

Lemma find_next_index_least (paramAlias : string) (used : list string) :
  (in_param_name paramAlias (find_next_index paramAlias used) ∉ used)
  ∧ (∀ j, j < find_next_index paramAlias used → in_param_name paramAlias j ∈ used).
Proof. apply next_index_from_least; [lia|lia]. Qed.

End AliasFacts.

Section ExpansionFacts.
Import PyStr Re SqlBuilder.
Context {V : Type}.
Implicit Types (c : condition V) (pre conds : list (condition V)).

Lemma expand_fold (paramAlias : string) (start : nat) (l : list nat)
    (used joined : list string) :
  fold_left (expand_step paramAlias start) l (used, joined)
  = (used ++ ((λ i, in_param_name paramAlias (i + start)) <$> l),
     joined ++ ((λ i, pyformat (in_param_name paramAlias (i + start))) <$> l)).
Proof.
  revert used joined. induction l as [|i l IH]; intros used joined.
  - simpl. by rewrite !app_nil_r.
  - cbn [fold_left]. unfold expand_step at 2. cbn [fst snd].
    rewrite IH, !fmap_cons, <-!app_assoc. done.
Qed.

Lemma expand_aliases (name : string) (start n : nat) (used : list string) :
  expand (param_alias name) start n used
  = (used ++ aliases name start n, pyformat <$> aliases name start n).
Proof.
  unfold expand, aliases. rewrite expand_fold. simpl.
  by rewrite <-list_fmap_compose.
Qed.

Lemma where_step_list (r : string) (used : list string) name lop cop (l : list V) :
  l ≠ [] →
  where_step (r, used) (Condition name lop cop (VList l))
  = (r +:+ connective lop +:+ " " +:+ quoted name +:+ " " +:+ in_operator cop
       +:+ list_group (aliases name (find_next_index (param_alias name) used) (length l)),
     used ++ aliases name (find_next_index (param_alias name) used) (length l)).
Proof.
  intros Hl. unfold where_step.
  cbn [value paramName logicalOperator comparisonOperator].
  rewrite expand_aliases.
  destruct l as [|v l]; [done|]. cbn [length Nat.ltb Nat.leb].
  rewrite connective_app. by rewrite !sapp_assoc.
Qed.

Lemma where_step_list_used (r : string) (used : list string) name lop cop (l : list V) :
  (where_step (r, used) (Condition name lop cop (VList l))).2
  = used ++ aliases name (find_next_index (param_alias name) used) (length l).
Proof.
  destruct l as [|v l].
  - rewrite where_step_empty_list. simpl. by rewrite app_nil_r.
  - by rewrite where_step_list.
Qed.

Lemma elem_of_aliases (name name' : string) (start n k : nat) :
  in_param_name (param_alias name') k ∈ aliases name start n
  ↔ name' = name ∧ start ≤ k < start + n.
Proof.
  unfold aliases. rewrite list_elem_of_fmap. split.
  - intros (i & H & Hi). apply in_param_name_inj in H as [-> ->].
    apply elem_of_seq in Hi. split; [done|lia].
  - intros [-> Hk]. exists (k - start). split.
    + f_equal. lia.
    + apply elem_of_seq. lia.
Qed.

Lemma taken_snoc pre c (name : string) :
  taken (pre ++ [c]) name
  = taken pre name
    + match value c with
      | VList l => if bool_decide (paramName c = name) then length l else 0
      | _ => 0
      end.
Proof.
  unfold taken. rewrite fmap_app, sum_list_with_app. simpl. lia.
Qed.

(** The aliases recorded so far are, for every column, the indices below
    the number of list elements already expanded for it. *)
Lemma used_names_taken pre (name : string) (k : nat) :
  in_param_name (param_alias name) k ∈ (where_loop pre).2 ↔ k < taken pre name.
Proof.
  revert name k. induction pre as [|c pre IH] using rev_ind; intros name k.
  { simpl. rewrite elem_of_nil. unfold taken. simpl. lia. }
  rewrite where_loop_snoc, taken_snoc.
  destruct (where_loop pre) as [r used] eqn:E. cbn [snd] in IH.
  destruct c as [name0 lop cop [|v|l]]; cbn [value paramName].
  - rewrite where_step_null. cbn [snd]. rewrite IH. lia.
  - rewrite where_step_scalar. cbn [snd]. rewrite IH. lia.
  - rewrite where_step_list_used.
    assert (find_next_index (param_alias name0) used = taken pre name0) as ->.
    { destruct (find_next_index_least (param_alias name0) used) as [Hout Hin].
      rewrite IH in Hout.
      destruct (decide (taken pre name0 < find_next_index (param_alias name0) used))
        as [Hlt|]; [|lia].
      apply Hin, IH in Hlt. lia. }
    rewrite elem_of_app, IH, elem_of_aliases.
    case_bool_decide as Hname.
    + subst name0. split.
      * intros [?|[_ ?]]; lia.
      * intros ?. destruct (decide (k < taken pre name)); [by left|].
        right. split; [done|lia].
    + split.
      * intros [?|[? _]]; [lia|congruence].
      * intros ?. left. lia.
Qed.

Lemma find_next_index_taken pre (name : string) :
  find_next_index (param_alias name) (where_loop pre).2 = taken pre name.
Proof.
  destruct (find_next_index_least (param_alias name) (where_loop pre).2) as [Hout Hin].
  rewrite used_names_taken in Hout.
  destruct (decide (taken pre name < find_next_index (param_alias name) (where_loop pre).2))
    as [Hlt|]; [|lia].
  apply Hin, used_names_taken in Hlt. lia.
Qed.

End ExpansionFacts.

Section ExpansionClaims.
Import PyStr Re SqlBuilder.
Context {V : Type}.
Implicit Types (c : condition V) (pre conds : list (condition V)).




End ExpansionClaims.



(** *** [Cnn]: the facade over the driver *)
Section FacadeFacts.
Import PyStr Re SqlBuilder Cnn.
Context {V D Cursor : Type} `{!Driver V D Cursor}.
Implicit Types (d : gmap string V) (sql : string) (obj : cnn Cursor).


Lemma row_tuple_raise (row : gmap string V) (names : list string) (e : exn) :
  row_tuple row names = Raise e →
  ∃ name, name ∈ names ∧ row !! name = None ∧ e = KeyError name.
Proof.
  induction names as [|name names IH]; [done|]. simpl.
  destruct (row !! name) as [v|] eqn:Hv.
  - destruct (row_tuple row names) as [vs|e']; [done|].
    intros [= ->]. destruct (IH eq_refl) as (n & Hn & Hm & ->).
    exists n. split_and!; [by right|done|done].
  - intros [= <-]. exists name. split_and!; [by left|done|done].
Qed.

Lemma row_tuple_ok (row : gmap string V) (names : list string) (vs : list V) :
  row_tuple row names = Ok vs → Forall (λ n, is_Some (row !! n)) names.
Proof.
  revert vs. induction names as [|name names IH]; intros vs; [by constructor|]. simpl.
  destruct (row !! name) as [v|] eqn:Hv; [|done].
  destruct (row_tuple row names) as [vs'|e'] eqn:E; [|done].
  intros _. constructor; [by rewrite Hv|by eapply IH].
Qed.

Lemma seq_params_loop_missing (rows : list (gmap string V)) (names : list string)
    (acc : list (py_params V)) :
  (∃ row, row ∈ rows ∧ ¬ Forall (λ n, is_Some (row !! n)) names) →
  ∃ name, name ∈ names ∧ seq_params_loop rows names acc = Raise (KeyError name).
Proof.
  revert acc. induction rows as [|row rows IH]; intros acc (bad & Hin & Hbad).
  { by apply elem_of_nil in Hin. }
  simpl. destruct (row_tuple row names) as [t|e] eqn:E.
  - apply IH. exists bad. split; [|done].
    apply elem_of_cons in Hin as [->|Hin]; [|done].
    by apply row_tuple_ok in E.
  - apply row_tuple_raise in E as (name & Hn & _ & ->). by exists name.
Qed.





End FacadeFacts.

Section FacadeClaims.
Import PyStr Re SqlBuilder Cnn.
Context {V D Cursor : Type} `{!Driver V D Cursor}.
Implicit Types (d : gmap string V) (sql : string) (obj : cnn Cursor).

(** What [commit] and [rollback] share: the driver call [f], then the
    release of the cursor. *)
Lemma finish_release (f : D → D * result unit) (s0 : D) obj :
  (∀ s', (call f ≫= λ _, release_cursor) (s0, obj) = (s', Ok tt) → _cursor s'.2 = None)
  ∧ (∀ s1 cur s2 e,
       f s0 = (s1, Ok tt) → _cursor obj = Some cur →
       cursor_close cur s1 = (s2, Raise e) → is_Exception e = true →
       (call f ≫= λ _, release_cursor) (s0, obj)
       = ((s2, CnnObj (autocommit obj) None), Ok tt))
  ∧ (∀ s1 e,
       f s0 = (s1, Raise e) →
       (call f ≫= λ _, release_cursor) (s0, obj) = ((s1, obj), Raise e)).
Proof.
  unfold release_cursor, mbind, M_bind, bind, call, get_cursor, set_cursor,
    try_except_Exception_pass, ret.
  cbn [fst snd]. split_and!.
  - intros s'. destruct (f s0) as [s1 [[]|e]]; [|done]. cbn [fst snd].
    destruct (_cursor obj) as [cur|] eqn:Hc; cbn [fst snd].
    + destruct (cursor_close cur s1) as [s2 [[]|e]]; cbn [fst snd].
      * by intros [= <-].
      * destruct (is_Exception e); [|done]. by intros [= <-].
    + by intros [= <-].
  - intros s1 cur s2 e Hf Hcur Hclose He. rewrite Hf. cbn [fst snd].
    rewrite Hcur. cbn [fst snd]. rewrite Hclose. cbn [fst snd]. by rewrite He.
  - intros s1 e Hf. rewrite Hf. by destruct obj.
Qed.

(** An exception of the close that is not an [Exception] is not caught. *)
Lemma finish_release_interrupted (f : D → D * result unit) (s0 s1 s2 : D) obj
    (cur : Cursor) (e : exn) :
  f s0 = (s1, Ok tt) → _cursor obj = Some cur →
  cursor_close cur s1 = (s2, Raise e) → is_Exception e = false →
  (call f ≫= λ _, release_cursor) (s0, obj) = ((s2, obj), Raise e).
Proof.
  intros Hf Hcur Hclose He.
  unfold release_cursor, mbind, M_bind, bind, call, get_cursor, set_cursor,
    try_except_Exception_pass, ret.
  cbn [fst snd]. rewrite Hf. cbn [fst snd]. rewrite Hcur. cbn [fst snd].
  rewrite Hclose. cbn [fst snd]. rewrite He. done.
Qed.

(** C10 (as amended).  When [commit] or [rollback] returns, the cursor slot
    holds [None]; an exception raised by closing the previous cursor that
    is an instance of [Exception] is swallowed, the method returns and the
    slot is cleared; an exception raised by the connection's own [commit]
    or [rollback] reaches the caller as it is, with the object unchanged.
    An exception of the close that is no instance of [Exception]
    ([KeyboardInterrupt], [SystemExit]) is not swallowed: it reaches the
    caller after the connection's call has gone through, and the cursor
    stays in the slot. *)
Theorem commit_rollback_release_cursor (s0 : D) obj :
  ((∀ s', commit (s0, obj) = (s', Ok tt) → _cursor s'.2 = None)
   ∧ (∀ s1 cur s2 e,
        cnn_commit s0 = (s1, Ok tt) → _cursor obj = Some cur →
        cursor_close cur s1 = (s2, Raise e) → is_Exception e = true →
        commit (s0, obj) = ((s2, CnnObj (autocommit obj) None), Ok tt))
   ∧ (∀ s1 e,
        cnn_commit s0 = (s1, Raise e) → commit (s0, obj) = ((s1, obj), Raise e))
   ∧ (∀ s1 cur s2 e,
        cnn_commit s0 = (s1, Ok tt) → _cursor obj = Some cur →
        cursor_close cur s1 = (s2, Raise e) → is_Exception e = false →
        commit (s0, obj) = ((s2, obj), Raise e)))
  ∧ ((∀ s', rollback (s0, obj) = (s', Ok tt) → _cursor s'.2 = None)
     ∧ (∀ s1 cur s2 e,
          cnn_rollback s0 = (s1, Ok tt) → _cursor obj = Some cur →
          cursor_close cur s1 = (s2, Raise e) → is_Exception e = true →
          rollback (s0, obj) = ((s2, CnnObj (autocommit obj) None), Ok tt))
     ∧ (∀ s1 e,
          cnn_rollback s0 = (s1, Raise e) → rollback (s0, obj) = ((s1, obj), Raise e))
     ∧ (∀ s1 cur s2 e,
          cnn_rollback s0 = (s1, Ok tt) → _cursor obj = Some cur →
          cursor_close cur s1 = (s2, Raise e) → is_Exception e = false →
          rollback (s0, obj) = ((s2, obj), Raise e))).
Proof.
  split.
  - destruct (finish_release cnn_commit s0 obj) as (H1 & H2 & H3).
    split_and!; [done..|]. intros s1 cur s2 e. apply finish_release_interrupted.
  - destruct (finish_release cnn_rollback s0 obj) as (H1 & H2 & H3).
    split_and!; [done..|]. intros s1 cur s2 e. apply finish_release_interrupted.
Qed.

(** The interrupted close of [commit], on its own. *)
Lemma commit_close_base_exception (s0 s1 s2 : D) obj (cur : Cursor) (e : exn) :
  cnn_commit s0 = (s1, Ok tt) → _cursor obj = Some cur →
  cursor_close cur s1 = (s2, Raise e) → is_Exception e = false →
  commit (s0, obj) = ((s2, obj), Raise e).
Proof.
  intros Hc Hcur Hclose He.
  unfold commit, release_cursor, mbind, M_bind, bind, call, get_cursor, set_cursor,
    try_except_Exception_pass, ret.
  cbn [fst snd]. rewrite Hc. cbn [fst snd]. rewrite Hcur. cbn [fst snd].
  rewrite Hclose. cbn [fst snd]. rewrite He. done.
Qed.

(** C3.  With an absent or empty value source the translator returns the
    template as it is, with no value sequence, whatever the template, and
    the caller executes the template without parameters. *)
Theorem empty_values_leave_template sql :
  _convert_pyformat_to_qmark (V:=V) sql None = Ok (sql, PNone)
  ∧ _convert_pyformat_to_qmark (V:=V) sql (Some ∅) = Ok (sql, PNone)
  ∧ (∀ cur : Cursor,
       execute_converted cur sql None = call (cursor_execute cur sql PNone)
       ∧ execute_converted cur sql (Some ∅) = call (cursor_execute cur sql PNone)).
Proof.
  destruct (convert_no_values (V:=V) sql) as [H1 H2]. split_and!; [done..|].
  intros cur. unfold execute_converted. by rewrite H1, H2.
Qed.


End FacadeClaims.

(** The instance of C10 for a driver whose cursors fail to close: the
    error of the close is swallowed and the slot cleared; the error of the
    connection's own call reaches the caller. *)
Lemma commit_rollback_release_cursor_witness :
  (Cnn.commit (true, Examples.with_cursor) = ((true, Cnn.CnnObj true None), Ok tt)
   ∧ Cnn.commit (false, Examples.with_cursor)
     = ((false, Examples.with_cursor), Raise (DriverError "commit failed")))
  ∧ (Cnn.rollback (true, Examples.with_cursor) = ((true, Cnn.CnnObj true None), Ok tt)
     ∧ Cnn.rollback (false, Examples.with_cursor)
       = ((false, Examples.with_cursor), Raise (DriverError "rollback failed"))).
Proof.
  split; split.
  - apply (proj1 (proj2 (proj1
      (commit_rollback_release_cursor true Examples.with_cursor)))
      true 0%nat true (DriverError "close failed")); reflexivity.
  - apply (proj1 (proj2 (proj2 (proj1
      (commit_rollback_release_cursor false Examples.with_cursor))))
      false (DriverError "commit failed")); reflexivity.
  - apply (proj1 (proj2 (proj2
      (commit_rollback_release_cursor true Examples.with_cursor)))
      true 0%nat true (DriverError "close failed")); reflexivity.
  - apply (proj1 (proj2 (proj2 (proj2
      (commit_rollback_release_cursor false Examples.with_cursor))))
      false (DriverError "rollback failed")); reflexivity.
Defined.

(** C10, as stated, fails for an exception of the close that is no
    [Exception]: with a cursor that is interrupted while it closes, the
    connection's commit (or rollback) goes through, the interrupt reaches
    the caller, and the cursor stays in the slot. *)
Lemma close_interrupt_counterexample :
  Cnn.commit (0%Z, Examples.with_cursor)
  = ((1%Z, Examples.with_cursor), Raise (BaseOnly "KeyboardInterrupt"))
  ∧ Cnn.rollback (0%Z, Examples.with_cursor)
    = ((1%Z, Examples.with_cursor), Raise (BaseOnly "KeyboardInterrupt"))
  ∧ Cnn._cursor Examples.with_cursor = Some 0%nat
  ∧ is_Exception (BaseOnly "KeyboardInterrupt") = false.
Proof. vm_compute. split_and!; reflexivity. Qed.


Example missing_parameter_message :
  Cnn._convert_pyformat_to_qmark "%(a)s" (Some {["b" := 1%Z]})
  = Raise (KeyError "Parameter 'a' not found for SQL: %(a)s").
Proof. vm_compute. reflexivity. Qed.


(** ** Part III: the rest of the code *)

(** *** Substitution read on the text *)
Section SubstFacts.
Import PyStr Re ReText.

Lemma subst_from_fuel (f : string → string) (fuel1 fuel2 : nat) (s : string) :
  String.length s ≤ fuel1 → String.length s ≤ fuel2 →
  subst_from f fuel1 s = subst_from f fuel2 s.
Proof.
  revert fuel2 s. induction fuel1 as [|fuel1 IH]; intros fuel2 s H1 H2.
  - destruct s; simpl in *; [|lia]. by destruct fuel2.
  - destruct fuel2 as [|fuel2]; [destruct s; simpl in *; [done|lia]|].
    destruct s as [|a s]; [done|]. cbn [subst_from].
    destruct (match_here (String a s)) as [[name rest]|] eqn:E.
    + apply match_here_length in E. simpl in *. f_equal. apply IH; lia.
    + simpl in *. f_equal. apply IH; lia.
Qed.

Lemma sub_loop_subst (f : string → string) (fuel : nat) (pre gap s : string) :
  String.length s ≤ fuel →
  join EmptyString
    (sub_loop (λ m, f (m_group1 m)) (pre +:+ gap +:+ s)
       (finditer_from fuel (String.length pre + String.length gap) s)
       (String.length pre))
  = gap +:+ subst_from f fuel s.
Proof.
  revert pre gap s. induction fuel as [|fuel IH]; intros pre gap s Hlen.
  { destruct s; simpl in Hlen; [|lia]. simpl. by rewrite drop_app_length. }
  destruct s as [|a s].
  { simpl. by rewrite drop_app_length. }
  cbn [finditer_from subst_from].
  destruct (match_here (String a s)) as [[name rest]|] eqn:E.
  - pose proof (match_here_length _ _ _ E) as Hl.
    apply match_here_sound in E as (E & _ & _).
    cbn [sub_loop m_start m_end m_group1]. rewrite !join_cons, slice_middle.
    rewrite E.
    pose proof (IH (pre +:+ gap +:+ pyformat name) EmptyString rest) as IH'.
    change (EmptyString +:+ rest) with rest in IH'.
    rewrite sapp_assoc, sapp_assoc in IH'. simpl in IH'. rewrite Nat.add_0_r in IH'.
    replace (String.length pre + String.length gap + (String.length name + 4))
      with (String.length (pre +:+ gap +:+ pyformat name)).
    2:{ unfold pyformat. rewrite !slength_app. simpl. lia. }
    rewrite IH'; [done|]. simpl in Hl, Hlen. lia.
  - replace (pre +:+ gap +:+ String a s)
      with (pre +:+ (gap +:+ String a EmptyString) +:+ s)
      by (by rewrite !sapp_assoc).
    replace (S (String.length pre + String.length gap))
      with (String.length pre + String.length (gap +:+ String a EmptyString))
      by (rewrite slength_app; simpl; lia).
    rewrite IH; [by rewrite sapp_assoc|]. simpl in Hlen. lia.
Qed.

Lemma sub_subst (f : string → string) (sql : string) :
  sub (λ m, f (m_group1 m)) sql = subst_from f (String.length sql) sql.
Proof.
  unfold sub, finditer.
  exact (sub_loop_subst f (String.length sql) EmptyString EmptyString sql (le_n _)).
Qed.

Lemma sub_const_subst (r sql : string) :
  sub (λ _, r) sql = subst_from (λ _, r) (String.length sql) sql.
Proof. exact (sub_subst (λ _, r) sql). Qed.

Lemma subst_other (f : string → string) (a : ascii) (s : string) :
  a ≠ "%"%char →
  subst_from f (String.length (String a s)) (String a s)
  = String a (subst_from f (String.length s) s).
Proof. intros Ha. cbn [String.length subst_from]. by rewrite match_here_other. Qed.

Lemma subst_skip (f : string → string) (gap t : string) :
  count_char "%" gap = 0 →
  subst_from f (String.length (gap +:+ t)) (gap +:+ t)
  = gap +:+ subst_from f (String.length t) t.
Proof.
  induction gap as [|a gap IH]; [done|]. intros Hc. simpl in Hc.
  destruct (Ascii.eqb_spec a "%") as [->|Ha]; [done|].
  rewrite !sapp_cons, subst_other by done. by rewrite IH.
Qed.

Lemma subst_pyformat (f : string → string) (name rest : string) :
  name ≠ EmptyString → count_char ")" name = 0 →
  subst_from f (String.length (pyformat name +:+ rest)) (pyformat name +:+ rest)
  = f name +:+ subst_from f (String.length rest) rest.
Proof.
  intros Hne Hc. pose proof (match_here_pyformat name rest Hne Hc) as Hm.
  pose proof (match_here_length _ _ _ Hm) as Hl.
  destruct (pyformat name +:+ rest) as [|a s] eqn:E; [done|].
  cbn [String.length subst_from]. rewrite Hm. f_equal.
  apply subst_from_fuel; simpl in Hl; lia.
Qed.

Lemma sub_const_skip (r gap t : string) :
  count_char "%" gap = 0 → sub (λ _, r) (gap +:+ t) = gap +:+ sub (λ _, r) t.
Proof. intros Hc. rewrite !sub_const_subst. by apply subst_skip. Qed.

Lemma sub_const_pyformat (r name rest : string) :
  name ≠ EmptyString → count_char ")" name = 0 →
  sub (λ _, r) (pyformat name +:+ rest) = r +:+ sub (λ _, r) rest.
Proof.
  intros Hne Hc. rewrite !sub_const_subst.
  by rewrite (subst_pyformat (λ _, r)).
Qed.

Lemma sub_const_no_percent (r s : string) :
  count_char "%" s = 0 → sub (λ _, r) s = s.
Proof.
  intros Hc. rewrite <-(sapp_nil_r s) at 1. rewrite sub_const_skip by done.
  by rewrite sapp_nil_r.
Qed.

End SubstFacts.

(** *** The rewritten text has no placeholder left *)
Section NoPlaceholderLeft.
Import PyStr Re ReText.

Lemma names_cons_none (a : ascii) (s : string) :
  match_here (String a s) = None → names_in_order (String a s) = names_in_order s.
Proof.
  intros H. unfold names_in_order, finditer. cbn [String.length finditer_from].
  rewrite H. apply finditer_from_names.
Qed.

Lemma qsubst_cons_inv (fuel : nat) (s : string) (b : ascii) (t : string) :
  String.length s ≤ fuel →
  subst_from (λ _, "?") fuel s = String b t → b ≠ "?"%char →
  ∃ s', s = String b s' ∧ match_here s = None
        ∧ t = subst_from (λ _, "?") (String.length s') s'.
Proof.
  intros Hlen H Hb. destruct fuel as [|fuel].
  { destruct s; simpl in Hlen; [done|lia]. }
  destruct s as [|a s]; [done|]. cbn [subst_from] in H.
  destruct (match_here (String a s)) as [[name rest]|] eqn:E.
  - injection H as <- _. done.
  - injection H as -> <-. exists s. split_and!; [done..|].
    apply subst_from_fuel; simpl in Hlen; lia.
Qed.

Lemma app_rparen_nonempty (n r : string) : n +:+ ")s" +:+ r ≠ EmptyString.
Proof. by destruct n. Qed.

(** Where the rewritten text runs up to [")s"] without a [")"], so does the
    text it was rewritten from. *)
Lemma qsubst_run (fuel : nat) (s n' r' : string) :
  String.length s ≤ fuel → count_char ")" n' = 0 →
  subst_from (λ _, "?") fuel s = n' +:+ ")s" +:+ r' →
  ∃ n r, s = n +:+ ")s" +:+ r ∧ count_char ")" n = 0
         ∧ (n' ≠ EmptyString → n ≠ EmptyString).
Proof.
  revert s n' r'. induction fuel as [|fuel IH]; intros s n' r' Hlen Hc H.
  { destruct s; simpl in Hlen; [|lia]. simpl in H. symmetry in H.
    by apply app_rparen_nonempty in H. }
  destruct s as [|a s].
  { simpl in H. symmetry in H. by apply app_rparen_nonempty in H. }
  cbn [subst_from] in H.
  destruct (match_here (String a s)) as [[name rest]|] eqn:E.
  - apply match_here_sound in E as (E & Hne & Hn).
    exists ("%(" +:+ name), rest. split_and!.
    + rewrite E. unfold pyformat. by rewrite !sapp_assoc.
    + rewrite count_char_app. simpl. lia.
    + done.
  - destruct n' as [|b n'].
    + change (String a (subst_from (λ _, "?") fuel s) = String ")" (String "s" r')) in H.
      injection H as -> H.
      apply qsubst_cons_inv in H as (s' & -> & _ & _); [|simpl in Hlen; lia|done].
      exists EmptyString, s'. done.
    + rewrite sapp_cons in H. injection H as -> H. simpl in Hc.
      destruct (Ascii.eqb_spec b ")") as [->|Hb]; [done|].
      destruct (IH s n' r') as (n & r & -> & Hn & _); [simpl in Hlen; lia|lia|done|].
      exists (String b n), r. split_and!; [done| |done].
      simpl. destruct (Ascii.eqb_spec b ")"); [done|]. by rewrite Hn.
Qed.

(** Where the pattern does not match the template, it does not match the
    rewritten text either. *)
Lemma qsubst_no_new_match (fuel : nat) (a : ascii) (s : string) :
  String.length s ≤ fuel →
  match_here (String a s) = None →
  match_here (String a (subst_from (λ _, "?") fuel s)) = None.
Proof.
  intros Hlen Hnone.
  destruct (match_here (String a (subst_from (λ _, "?") fuel s)))
    as [[n' r']|] eqn:E; [exfalso|done].
  apply match_here_sound in E as (E & Hne & Hc).
  unfold pyformat in E. rewrite !sapp_assoc in E.
  change (String a (subst_from (λ _, "?") fuel s)
          = String "%" (String "(" (n' +:+ ")s" +:+ r'))) in E.
  injection E as -> E.
  apply qsubst_cons_inv in E as (s' & -> & _ & E); [|done|done].
  symmetry in E. apply qsubst_run in E as (n & r & -> & Hn & Hnn); [|done|done].
  assert (String "%" (String "(" (n +:+ ")s" +:+ r)) = pyformat n +:+ r) as Hs.
  { unfold pyformat. by rewrite !sapp_assoc. }
  rewrite Hs, match_here_pyformat in Hnone; [done|by apply Hnn|done].
Qed.

Lemma names_qsubst (fuel : nat) (s : string) :
  String.length s ≤ fuel → names_in_order (subst_from (λ _, "?") fuel s) = [].
Proof.
  revert s. induction fuel as [|fuel IH]; intros s Hlen.
  { by destruct s; simpl in Hlen; [|lia]. }
  destruct s as [|a s]; [done|]. cbn [subst_from].
  destruct (match_here (String a s)) as [[name rest]|] eqn:E.
  - apply match_here_length in E.
    change ("?" +:+ subst_from (λ _, "?") fuel rest)
      with (String "?" (subst_from (λ _, "?") fuel rest)).
    rewrite names_other by done. apply IH. simpl in *. lia.
  - rewrite names_cons_none.
    + apply IH. simpl in Hlen. lia.
    + apply qsubst_no_new_match; [simpl in Hlen; lia|done].
Qed.

Lemma names_sub_qmark (sql : string) : names_in_order (sub (λ _, "?") sql) = [].
Proof. rewrite sub_const_subst. by apply names_qsubst. Qed.

End NoPlaceholderLeft.

(** *** More on the translator *)
Section TranslatorMore.
Import PyStr Re ReText SqlBuilder Cnn.
Context {V : Type}.
Implicit Types (d row : gmap string V) (sql : string).

Lemma convert_seq_inv sql (params : option (gmap string V)) (new_sql : string)
    (vals : list V) :
  _convert_pyformat_to_qmark sql params = Ok (new_sql, PSeq vals) →
  ∃ d, params = Some d ∧ d ≠ ∅ ∧ contains "%(" sql = true
       ∧ new_sql = sub (λ _, "?") sql
       ∧ Forall2 (λ name v, d !! name = Some v) (names_in_order sql) vals.
Proof.
  destruct params as [d|]; [|done]. intros H. exists d.
  assert (d ≠ ∅) as Hd.
  { intros ->. unfold _convert_pyformat_to_qmark in H. by rewrite map_size_empty in H. }
  assert (contains "%(" sql = true) as Hc.
  { destruct (contains "%(" sql) eqn:E; [done|].
    by rewrite pass_through_without_marker in H. }
  split_and!; [done..| |].
  - destruct (bound_or_first_missing (λ n, d !! n) (names_in_order sql))
      as [[vs HF]|(l1 & name & l2 & E & Hl1 & Hm)].
    + rewrite (convert_bound sql d vs) in H by done. by injection H as <- _.
    + by rewrite (convert_first_missing sql d l1 name l2) in H.
  - destruct (bound_or_first_missing (λ n, d !! n) (names_in_order sql))
      as [[vs HF]|(l1 & name & l2 & E & Hl1 & Hm)].
    + rewrite (convert_bound sql d vs) in H by done. by injection H as _ <-.
    + by rewrite (convert_first_missing sql d l1 name l2) in H.
Qed.

(** X1.  A translated text has no named placeholder left, and
    translating it again, with any value source, returns it unchanged. *)
Theorem translated_text_is_final sql (params : option (gmap string V))
    (new_sql : string) (vals : list V) :
  _convert_pyformat_to_qmark sql params = Ok (new_sql, PSeq vals) →
  names_in_order new_sql = []
  ∧ ∀ params' : option (gmap string V),
      ∃ b, _convert_pyformat_to_qmark new_sql params' = Ok (new_sql, b).
Proof.
  intros (d & _ & _ & _ & -> & _)%convert_seq_inv.
  pose proof (names_sub_qmark sql) as Hn. split; [done|].
  intros [d'|]; [|by eexists].
  destruct (decide (d' = ∅)) as [->|Hd'].
  { eexists. apply convert_no_values. }
  destruct (contains "%(" (sub (λ _, "?") sql)) eqn:Hc.
  - eexists. by apply pass_through_gate_miss.
  - eexists. by apply pass_through_without_marker.
Qed.

(** X2.  Only the referenced names count: two non-empty value sources that
    agree on the names the template refers to are translated alike, to the
    same text and values or to the same error. *)
Theorem translation_ignores_other_keys sql d d' :
  d ≠ ∅ → d' ≠ ∅ →
  names_in_order sql ≠ [] →
  (∀ name, name ∈ names_in_order sql → d !! name = d' !! name) →
  _convert_pyformat_to_qmark sql (Some d) = _convert_pyformat_to_qmark sql (Some d').
Proof.
  intros Hd Hd' Hn%names_contains Hagree.
  destruct (bound_or_first_missing (λ n, d !! n) (names_in_order sql))
    as [[vs HF]|(l1 & name & l2 & E & Hl1 & Hm)].
  - assert (Forall2 (λ name v, d' !! name = Some v) (names_in_order sql) vs) as HF'.
    { apply Forall2_same_length_lookup. split; [by eapply Forall2_length|].
      intros i name v Hi Hv. rewrite <-Hagree by (by eapply list_elem_of_lookup_2).
      exact (Forall2_lookup_lr _ _ _ _ _ _ HF Hi Hv). }
    by rewrite (convert_bound sql d vs), (convert_bound sql d' vs).
  - assert (d' !! name = None) as Hm'.
    { rewrite <-Hagree; [done|]. rewrite E. apply elem_of_app. right. by left. }
    assert (Forall (λ n, is_Some (d' !! n)) l1) as Hl1'.
    { rewrite Forall_forall in Hl1. apply Forall_forall. intros n Hin.
      rewrite <-Hagree; [by apply Hl1|]. rewrite E. apply elem_of_app. by left. }
    by rewrite (convert_first_missing sql d l1 name l2),
      (convert_first_missing sql d' l1 name l2).
Qed.

Lemma row_tuple_bound row (names : list string) (vs : list V) :
  row_tuple row names = Ok vs ↔ Forall2 (λ name v, row !! name = Some v) names vs.
Proof.
  revert vs. induction names as [|name names IH]; intros vs; simpl.
  - split; [by intros [= <-]; constructor|]. by intros ->%Forall2_nil_inv_l.
  - destruct (row !! name) as [v|] eqn:Hv.
    + destruct (row_tuple row names) as [vs'|e] eqn:E.
      * split.
        -- intros [= <-]. constructor; [done|]. by apply IH.
        -- intros (v' & vs'' & Hv' & HF & ->)%Forall2_cons_inv_l.
           apply IH in HF. by simplify_eq.
      * split; [done|].
        intros (v' & vs'' & Hv' & HF & ->)%Forall2_cons_inv_l. by apply IH in HF.
    + split; [done|].
      intros (v' & vs'' & Hv' & HF & ->)%Forall2_cons_inv_l. congruence.
Qed.

Lemma row_tuple_first_missing row (names1 : list string) (name : string)
    (names2 : list string) :
  Forall (λ n, is_Some (row !! n)) names1 → row !! name = None →
  row_tuple row (names1 ++ name :: names2) = Raise (KeyError name).
Proof.
  induction 1 as [|n names1 [v Hv] _ IH]; intros Hm; simpl.
  - by rewrite Hm.
  - by rewrite Hv, IH.
Qed.

(** X3.  The two paths of [create] agree row by row: for a template with
    placeholders and a non-empty row, the tuple built for the batch is the
    value sequence the translator returns for the row alone, the batch
    statement is the translator's text, and where one raises for a missing
    name the other raises for the same name. *)
Theorem batch_row_agrees_with_single_row sql row :
  row ≠ ∅ → names_in_order sql ≠ [] →
  (∀ vs, row_tuple row (names_in_order sql) = Ok vs ↔
         _convert_pyformat_to_qmark sql (Some row) = Ok (sub (λ _, "?") sql, PSeq vs))
  ∧ (∀ name, row_tuple row (names_in_order sql) = Raise (KeyError name) →
             _convert_pyformat_to_qmark sql (Some row) = Raise (missing_parameter name sql))
  ∧ (∀ e, _convert_pyformat_to_qmark sql (Some row) = Raise e →
          ∃ name, e = missing_parameter name sql
                  ∧ row_tuple row (names_in_order sql) = Raise (KeyError name)).
Proof.
  intros Hd Hn. pose proof (names_contains sql Hn) as Hc.
  destruct (bound_or_first_missing (λ n, row !! n) (names_in_order sql))
    as [[vs HF]|(l1 & name & l2 & E & Hl1 & Hm)].
  - rewrite (convert_bound sql row vs) by done.
    apply row_tuple_bound in HF. rewrite HF. split_and!.
    + intros vs'. split; intros [= ->]; done.
    + done.
    + done.
  - rewrite (convert_first_missing sql row l1 name l2) by done.
    rewrite E, row_tuple_first_missing by done. split_and!.
    + intros vs. split; done.
    + by intros name' [= ->].
    + intros e [= <-]. by exists name.
Qed.

End TranslatorMore.

(** *** Statement templates and their translation *)
Section TemplateFacts.
Import PyStr Re ReText SqlBuilder Cnn WhereKeys.

Lemma join_cons_cons (sep a b : string) (l : list string) :
  join sep (a :: b :: l) = a +:+ sep +:+ join sep (b :: l).
Proof. done. Qed.

Lemma join_cons_ne (sep a : string) (l : list string) :
  l ≠ [] → join sep (a :: l) = a +:+ sep +:+ join sep l.
Proof. by destruct l. Qed.

Lemma count_percent_join (items : list string) :
  Forall (λ s, count_char "%" s = 0) items → count_char "%" (join "," items) = 0.
Proof.
  induction 1 as [|a items Ha HF IH]; [done|].
  destruct items as [|b items]; [done|].
  rewrite join_cons_cons, !count_char_app, Ha, IH. done.
Qed.

(** Comma-joined items, each a text without ['%'] followed by a
    placeholder: the names and the rewriting of what they are joined into. *)
Lemma names_join (g : string → string) (keys : list string) (rest : string) :
  Forall (λ k, count_char "%" (g k) = 0 ∧ k ≠ EmptyString ∧ count_char ")" k = 0) keys →
  names_in_order (join "," ((λ k, g k +:+ pyformat k) <$> keys) +:+ rest)
  = keys ++ names_in_order rest.
Proof.
  induction 1 as [|k keys (Hg & Hne & Hc) HF IH]; [done|].
  destruct keys as [|k' keys].
  - cbn [fmap list_fmap join String.concat app]. rewrite sapp_assoc.
    by rewrite names_skip, names_pyformat.
  - rewrite (fmap_cons _ k), join_cons_ne, !sapp_assoc by done.
    rewrite names_skip, names_pyformat by done.
    rewrite (names_skip ",") by done. by rewrite IH.
Qed.

Lemma sub_join (r : string) (g : string → string) (keys : list string) (rest : string) :
  Forall (λ k, count_char "%" (g k) = 0 ∧ k ≠ EmptyString ∧ count_char ")" k = 0) keys →
  sub (λ _, r) (join "," ((λ k, g k +:+ pyformat k) <$> keys) +:+ rest)
  = join "," ((λ k, g k +:+ r) <$> keys) +:+ sub (λ _, r) rest.
Proof.
  induction 1 as [|k keys (Hg & Hne & Hc) HF IH]; [done|].
  destruct keys as [|k' keys].
  - cbn [fmap list_fmap join String.concat app]. rewrite !sapp_assoc.
    by rewrite sub_const_skip, sub_const_pyformat.
  - rewrite !(fmap_cons _ k), !join_cons_ne, !sapp_assoc by done.
    rewrite sub_const_skip, sub_const_pyformat by done.
    rewrite (sub_const_skip r ",") by done. by rewrite IH.
Qed.

Lemma bound_non_empty {V} (row : gmap string V) (keys : list string) (vals : list V) :
  keys ≠ [] → Forall2 (λ k v, row !! k = Some v) keys vals → row ≠ ∅.
Proof.
  intros Hk HF ->. destruct HF as [|k v ? ? Hv]; [done|].
  by rewrite lookup_empty in Hv.
Qed.

(** X4.  The template of [insert] and its translation: for column names
    that are plain and a row that binds them, the placeholders of the
    template are the columns in order, and translation gives one ['?'] per
    column with the row's values in column order.  A batch is given the
    template of its first row. *)
Theorem insert_then_translate {V} (table : string) (keys : list string)
    (others : list (list string)) (row : gmap string V) (vals : list V) :
  count_char "%" table = 0 →
  keys ≠ [] →
  Forall plain_name keys →
  Forall2 (λ k v, row !! k = Some v) keys vals →
  ∃ tpl,
    insert table (DataDict keys) = Ok tpl
    ∧ insert table (DataList (keys :: others)) = Ok tpl
    ∧ names_in_order tpl = keys
    ∧ _convert_pyformat_to_qmark tpl (Some row)
      = Ok ("INSERT INTO " +:+ quoted table +:+ " (" +:+ join "," (quoted <$> keys)
              +:+ ") VALUES(" +:+ join "," ((λ _, "?") <$> keys) +:+ ")",
            PSeq vals).
Proof.
  intros Ht Hk Hplain HF. eexists. split; [reflexivity|]. split; [reflexivity|].
  assert (Forall (λ k, count_char "%" ((λ _, EmptyString) k) = 0
                       ∧ k ≠ EmptyString ∧ count_char ")" k = 0) keys) as Hitems.
  { eapply Forall_impl; [exact Hplain|]. intros k (? & ? & ?). done. }
  assert (count_char "%" (join "," (quoted <$> keys)) = 0) as Hcols.
  { apply count_percent_join, Forall_fmap. eapply Forall_impl; [exact Hplain|].
    intros k (_ & Hp & _). change (count_char "%" (quoted k) = 0).
    by rewrite count_percent_quoted. }
  assert (count_char "%" (quoted table) = 0) as Hqt by (by rewrite count_percent_quoted).
  change (pyformat <$> keys) with ((λ k, (λ _, EmptyString) k +:+ pyformat k) <$> keys).
  assert (names_in_order
            ("INSERT INTO " +:+ quoted table +:+ " (" +:+ join "," (quoted <$> keys)
               +:+ ") VALUES("
               +:+ join "," ((λ k, (λ _, EmptyString) k +:+ pyformat k) <$> keys) +:+ ")")
          = keys) as Hnames.
  { rewrite (names_skip "INSERT INTO "), (names_skip (quoted table)),
      (names_skip " ("), (names_skip (join "," (quoted <$> keys))),
      (names_skip ") VALUES(") by done.
    rewrite names_join by done. by rewrite app_nil_r. }
  split; [done|].
  erewrite convert_bound; [|by eapply bound_non_empty| |by rewrite Hnames].
  2:{ apply names_contains. by rewrite Hnames. }
  f_equal. f_equal.
  rewrite (sub_const_skip "?" "INSERT INTO "), (sub_const_skip "?" (quoted table)),
    (sub_const_skip "?" " ("), (sub_const_skip "?" (join "," (quoted <$> keys))),
    (sub_const_skip "?" ") VALUES(") by done.
  rewrite sub_join by done. by rewrite sub_const_no_percent.
Qed.

(** X5.  The template of [update] and its translation: for plain column
    names and a row that binds them, the placeholders are the columns in
    order and translation gives ["col" = ?] for each, with the row's values
    in column order. *)
Theorem update_then_translate {V} (table : string) (keys : list string)
    (row : gmap string V) (vals : list V) :
  count_char "%" table = 0 →
  keys ≠ [] →
  Forall plain_name keys →
  Forall2 (λ k v, row !! k = Some v) keys vals →
  ∃ tpl,
    update table (DataDict keys) = Ok tpl
    ∧ names_in_order tpl = keys
    ∧ _convert_pyformat_to_qmark tpl (Some row)
      = Ok ("UPDATE " +:+ quoted table +:+ " SET "
              +:+ join "," ((λ k, quoted k +:+ " = ?") <$> keys),
            PSeq vals).
Proof.
  intros Ht Hk Hplain HF.
  exists ("UPDATE " +:+ quoted table +:+ " SET "
            +:+ join "," ((λ k, (quoted k +:+ " = ") +:+ pyformat k) <$> keys)).
  assert (Forall (λ k, count_char "%" (quoted k +:+ " = ") = 0
                       ∧ k ≠ EmptyString ∧ count_char ")" k = 0) keys) as Hitems.
  { eapply Forall_impl; [exact Hplain|]. intros k (? & Hp & ?).
    rewrite count_char_app, count_percent_quoted, Hp. done. }
  assert (count_char "%" (quoted table) = 0) as Hqt by (by rewrite count_percent_quoted).
  split.
  { unfold update. destruct keys as [|k keys]; [done|]. cbn [length Nat.eqb].
    rewrite (list_fmap_ext (λ key, quoted key +:+ " = " +:+ pyformat key)
               (λ k, (quoted k +:+ " = ") +:+ pyformat k) (k :: keys)); [done|].
    intros i x _. by rewrite sapp_assoc. }
  assert (names_in_order
            ("UPDATE " +:+ quoted table +:+ " SET "
               +:+ join "," ((λ k, (quoted k +:+ " = ") +:+ pyformat k) <$> keys))
          = keys) as Hnames.
  { rewrite (names_skip "UPDATE "), (names_skip (quoted table)),
      (names_skip " SET ") by done.
    rewrite <-(sapp_nil_r (join _ _)), names_join by done. by rewrite app_nil_r. }
  split; [done|].
  erewrite convert_bound; [|by eapply bound_non_empty| |by rewrite Hnames].
  2:{ apply names_contains. by rewrite Hnames. }
  f_equal. f_equal.
  rewrite (sub_const_skip "?" "UPDATE "), (sub_const_skip "?" (quoted table)),
    (sub_const_skip "?" " SET ") by done.
  rewrite <-(sapp_nil_r (join _ _)), (sub_join "?" (λ k, quoted k +:+ " = ")) by done.
  rewrite sapp_nil_r.
  rewrite (list_fmap_ext (λ k, (quoted k +:+ " = ") +:+ "?")
             (λ k, quoted k +:+ " = ?") keys); [done|].
  intros i x _. by rewrite sapp_assoc.
Qed.

End TemplateFacts.

(** *** The keys a clause asks for *)
Section WhereKeysFacts.
Import PyStr Re ReText SqlBuilder Cnn WhereKeys.
Context {V : Type}.
Implicit Types (c : condition V) (pre conds : list (condition V)) (d : gmap string V).

Lemma pretty_N_go_no_rparen (x : N) (s : string) :
  count_char ")" s = 0 → count_char ")" (pretty_N_go x s) = 0.
Proof.
  revert s. induction (N.lt_wf_0 x) as [x _ IH]; intros s Hs.
  assert (x = 0 ∨ 0 < x)%N as [->|Hx] by lia.
  - by rewrite pretty_N_go_0.
  - rewrite pretty_N_go_step by done. apply IH.
    { by apply N.div_lt. }
    simpl. rewrite Hs. unfold pretty_N_char. by repeat case_match.
Qed.

Lemma pretty_nat_no_rparen (k : nat) : count_char ")" (pretty k) = 0.
Proof.
  unfold pretty, pretty_nat, pretty, pretty_N.
  case_decide; [done|]. by apply pretty_N_go_no_rparen.
Qed.

Lemma aliases_plain (name : string) (start n : nat) :
  count_char ")" name = 0 →
  Forall (λ k, count_char "%" ((λ _, EmptyString) k) = 0
               ∧ k ≠ EmptyString ∧ count_char ")" k = 0) (aliases name start n).
Proof.
  intros Hn. apply Forall_fmap, Forall_forall. intros i _.
  change (0 = 0 ∧ in_param_name (param_alias name) (i + start) ≠ EmptyString
          ∧ count_char ")" (in_param_name (param_alias name) (i + start)) = 0).
  split_and!; [done|done|].
  unfold in_param_name, param_alias.
  rewrite !count_char_app, Hn, pretty_nat_no_rparen. done.
Qed.

Lemma count_percent_in_operator (cop : string) : count_char "%" (in_operator cop) = 0.
Proof. unfold in_operator. case_bool_decide as H; [done|]. by rewrite H. Qed.

(** One more condition adds its fragment to the text. *)
Lemma fragment_step pre c :
  (where_loop (pre ++ [c])).1 = (where_loop pre).1 +:+ fragment pre c.
Proof.
  rewrite where_loop_snoc. pose proof (find_next_index_taken pre (paramName c)) as Hk.
  destruct (where_loop pre) as [r used]. cbn [fst snd] in *.
  destruct c as [name lop cop [|v|[|v l]]]; unfold fragment; cbn [value paramName] in *.
  - by rewrite where_step_null.
  - by rewrite where_step_scalar.
  - by rewrite where_step_empty_list.
  - rewrite where_step_list, Hk by done. done.
Qed.

Lemma where_loop_clause pre conds :
  (where_loop (pre ++ conds)).1 = (where_loop pre).1 +:+ clause_from pre conds.
Proof.
  revert pre. induction conds as [|c conds IH]; intros pre.
  - by rewrite app_nil_r, sapp_nil_r.
  - rewrite cons_middle, app_assoc, IH, fragment_step.
    cbn [clause_from]. by rewrite sapp_assoc.
Qed.

Lemma names_fragment pre c (rest : string) :
  plain c →
  names_in_order (fragment pre c +:+ rest) = keys_of pre c ++ names_in_order rest.
Proof.
  intros (Hn & Hp & Hc & Hl).
  destruct c as [name lop cop [|v|[|v l]]];
    unfold fragment, keys_of, scalar_fragment;
    cbn [value paramName logicalOperator comparisonOperator] in *.
  - rewrite names_skip; [done|].
    rewrite !count_char_app, count_percent_quoted, Hn, Hc, Hl. done.
  - rewrite !sapp_assoc.
    rewrite (names_skip (connective lop)), (names_skip " "), (names_skip (quoted name)),
      (names_skip " "), (names_skip cop), (names_skip " ")
      by (done || by rewrite count_percent_quoted).
    rewrite names_pyformat; [done|done|].
    unfold param_alias. rewrite count_char_app, Hp. done.
  - by rewrite names_skip.
  - rewrite !sapp_assoc.
    rewrite (names_skip (connective lop)), (names_skip " "), (names_skip (quoted name)),
      (names_skip " "), (names_skip (in_operator cop))
      by (done || (by rewrite count_percent_quoted) || apply count_percent_in_operator).
    unfold list_group. rewrite !sapp_assoc, (names_skip "(") by done.
    change (pyformat <$> aliases name (taken pre name) (length (v :: l)))
      with ((λ k, (λ _, EmptyString) k +:+ pyformat k)
              <$> aliases name (taken pre name) (length (v :: l))).
    rewrite names_join by (by apply aliases_plain).
    by rewrite (names_skip ")").
Qed.

Lemma names_clause pre conds :
  Forall plain conds →
  names_in_order (clause_from pre conds) = keys_from pre conds.
Proof.
  intros HF. revert pre. induction HF as [|c conds Hc _ IH]; intros pre; [done|].
  cbn [clause_from keys_from]. by rewrite names_fragment, IH.
Qed.

Lemma names_where conds :
  Forall plain conds → names_in_order (whereCondition conds) = where_keys conds.
Proof.
  intros Hplain. unfold whereCondition, where_keys.
  rewrite <-(app_nil_l conds) at 1. rewrite where_loop_clause.
  cbn [where_loop fold_left fst]. rewrite names_skip by done.
  by apply names_clause.
Qed.

(** X6.  What a clause asks of its value source: for plain conditions the
    placeholders of the built clause are, in order, [param_<paramName>] for
    each scalar condition and the aliases for each list condition, nothing
    for a null value or an empty list; a value source with these keys is
    translated with its values in that order. *)
Theorem where_clause_keys conds d (vals : list V) :
  Forall plain conds →
  names_in_order (whereCondition conds) = where_keys conds
  ∧ (where_keys conds ≠ [] →
     Forall2 (λ k v, d !! k = Some v) (where_keys conds) vals →
     _convert_pyformat_to_qmark (whereCondition conds) (Some d)
     = Ok (sub (λ _, "?") (whereCondition conds), PSeq vals)).
Proof.
  intros Hplain.
  pose proof (names_where conds Hplain) as Hnames.
  split; [done|]. intros Hne HF.
  apply convert_bound.
  - by eapply bound_non_empty.
  - apply names_contains. by rewrite Hnames.
  - by rewrite Hnames.
Qed.

(** X7.  The aliases recorded during one call are pairwise different, and
    for every column they are the indices below the number of list
    elements expanded for it: no index is skipped and none is used
    twice. *)
Theorem where_aliases_distinct conds :
  NoDup (where_loop conds).2
  ∧ ∀ name k, in_param_name (param_alias name) k ∈ (where_loop conds).2
              ↔ k < taken conds name.
Proof.
  split; [|intros name k; apply used_names_taken].
  induction conds as [|c conds IH] using rev_ind; [constructor|].
  rewrite where_loop_snoc.
  pose proof (used_names_taken conds) as Hinv.
  pose proof (find_next_index_taken conds (paramName c)) as Hk.
  destruct (where_loop conds) as [r used]. cbn [snd] in *.
  destruct c as [name lop cop [|v|l]]; cbn [paramName] in *.
  - by rewrite where_step_null.
  - by rewrite where_step_scalar.
  - rewrite where_step_list_used, Hk. apply NoDup_app. split_and!; [done| |].
    + intros x Hx (i & -> & Hi)%list_elem_of_fmap. apply elem_of_seq in Hi.
      apply Hinv in Hx. lia.
    + assert (Inj (=) (=)
                (λ i, in_param_name (param_alias name) (i + taken conds name))) as Hinj.
      { intros i j H. apply in_param_name_index_inj in H. lia. }
      apply (NoDup_fmap_2 _), NoDup_seq.
Qed.

End WhereKeysFacts.

Section AliasClash.
Import PyStr Re ReText SqlBuilder Cnn WhereKeys.
Context {V : Type}.


End AliasClash.

(** *** The other methods of [Cnn] *)
Section RestFacts.
Import PyStr Re ReText SqlBuilder Cnn CnnRest.
Context {V D Cursor : Type} `{!Driver V D Cursor} `{!Queries V D Cursor}.
Implicit Types (sql : string) (obj : cnn Cursor) (params : option (gmap string V)).

Lemma run_call_ok {A B} (f : D → D * result A) (k : A → M B) (s0 s1 : D) obj (a : A) :
  f s0 = (s1, Ok a) → (call f ≫= k) (s0, obj) = k a (s1, obj).
Proof. intros H. unfold mbind, M_bind, bind, call. cbn [fst snd]. by rewrite H. Qed.

Lemma run_call_raise {A B} (f : D → D * result A) (k : A → M B) (s0 s1 : D) obj
    (e : exn) :
  f s0 = (s1, Raise e) → (call f ≫= k) (s0, obj) = ((s1, obj), Raise e).
Proof. intros H. unfold mbind, M_bind, bind, call. cbn [fst snd]. by rewrite H. Qed.

Lemma run_set_cursor {B} (c : option Cursor) (k : unit → M B) (s : D) obj :
  (set_cursor c ≫= k) (s, obj) = k tt (s, CnnObj (autocommit obj) c).
Proof. done. Qed.

Lemma run_read_driver {A B} (f : D → A) (k : A → M B) (s : D) obj :
  (read_driver f ≫= k) (s, obj) = k (f s) (s, obj).
Proof. done. Qed.

Lemma run_get_autocommit {B} (k : bool → M B) (s : D) obj :
  (get_autocommit ≫= k) (s, obj) = k (autocommit obj) (s, obj).
Proof. done. Qed.

Lemma run_raise {A B} (e : exn) (k : A → M B) (st : D * cnn Cursor) :
  (raise e ≫= k) st = (st, Raise e).
Proof. done. Qed.

Lemma run_ret {A B} (a : A) (k : A → M B) (st : D * cnn Cursor) :
  (ret a ≫= k) st = k a st.
Proof. done. Qed.

Lemma execute_converted_ok (cur : Cursor) sql params (q : string) (seq : py_params V) :
  _convert_pyformat_to_qmark sql params = Ok (q, seq) →
  execute_converted cur sql params = call (cursor_execute cur q seq).
Proof. intros H. unfold execute_converted. by rewrite H. Qed.

Lemma execute_converted_raise (cur : Cursor) sql params (e : exn) :
  _convert_pyformat_to_qmark sql params = Raise e →
  execute_converted cur sql params = raise e.
Proof. intros H. unfold execute_converted. by rewrite H. Qed.

(** [_execute_dml] once the cursor is there. *)
Lemma execute_dml_run sql params (s0 s1 : D) obj (cur : Cursor) :
  cnn_cursor s0 = (s1, Ok cur) →
  _execute_dml sql params (s0, obj)
  = match _convert_pyformat_to_qmark sql params with
    | Raise e => ((s1, CnnObj (autocommit obj) (Some cur)), Raise e)
    | Ok (q, seq) =>
        match cursor_execute cur q seq s1 with
        | (s2, Raise e) => ((s2, CnnObj (autocommit obj) (Some cur)), Raise e)
        | (s2, Ok _) =>
            if autocommit obj then
              match commit (s2, CnnObj (autocommit obj) (Some cur)) with
              | (st, Ok _) => (st, Ok (cursor_rowcount cur s2))
              | (st, Raise e) => (st, Raise e)
              end
            else ((s2, CnnObj (autocommit obj) (Some cur)), Ok (cursor_rowcount cur s2))
        end
    end.
Proof.
  intros Hc. unfold _execute_dml.
  rewrite (run_call_ok _ _ _ _ _ _ Hc), run_set_cursor.
  destruct (_convert_pyformat_to_qmark sql params) as [[q seq]|e] eqn:E.
  - rewrite (execute_converted_ok _ _ _ _ _ E).
    destruct (cursor_execute cur q seq s1) as [s2 [[]|e]] eqn:Ex.
    + rewrite (run_call_ok _ _ _ _ _ _ Ex), run_read_driver, run_get_autocommit.
      cbn [autocommit]. destruct (autocommit obj); [|done].
      unfold mbind, M_bind, bind.
      by destruct (commit (s2, CnnObj true (Some cur))) as [st [[]|e]].
    + by rewrite (run_call_raise _ _ _ _ _ _ Ex).
  - by rewrite (execute_converted_raise _ _ _ _ E), run_raise.
Qed.

Lemma commit_ok_releases (st st' : D * cnn Cursor) :
  commit st = (st', Ok tt) → _cursor st'.2 = None ∧ autocommit st'.2 = autocommit st.2.
Proof.
  destruct st as [s obj]. intros H. split.
  - by eapply (proj1 (finish_release cnn_commit s obj)).
  - revert H. unfold commit, release_cursor, mbind, M_bind, bind, call, get_cursor,
      set_cursor, try_except_Exception_pass, ret. cbn [fst snd].
    destruct (cnn_commit s) as [s1 [[]|e]]; [|done]. cbn [fst snd].
    destruct (_cursor obj) as [cur|]; cbn [fst snd].
    + destruct (cursor_close cur s1) as [s2 [[]|e]]; cbn [fst snd].
      * by intros [= <-].
      * destruct (is_Exception e); [|done]. by intros [= <-].
    + by intros [= <-].
Qed.

(** X9.  [update] and [delete] return the row count that the cursor shows
    right after the statement, read before any commit.  When they return,
    the object has its [autocommit] flag as before; with [autocommit] the
    cursor slot is cleared, without it the slot holds the cursor of the
    call. *)
Theorem dml_returns_count_before_commit sql params (s0 : D) obj
    (st' : D * cnn Cursor) (n : Z) :
  update sql params (s0, obj) = (st', Ok n) →
  delete sql params (s0, obj) = (st', Ok n)
  ∧ autocommit st'.2 = autocommit obj
  ∧ (autocommit obj = true → _cursor st'.2 = None)
  ∧ ∃ s1 cur q seq s2,
      cnn_cursor s0 = (s1, Ok cur)
      ∧ _convert_pyformat_to_qmark sql params = Ok (q, seq)
      ∧ cursor_execute cur q seq s1 = (s2, Ok tt)
      ∧ n = cursor_rowcount cur s2
      ∧ (autocommit obj = false → st' = (s2, CnnObj false (Some cur))).
Proof.
  unfold update, delete. intros H. split; [done|].
  destruct (cnn_cursor s0) as [s1 [cur|e]] eqn:Hc.
  2:{ unfold _execute_dml in H. by rewrite (run_call_raise _ _ _ _ _ _ Hc) in H. }
  rewrite (execute_dml_run _ _ _ _ _ _ Hc) in H.
  destruct (_convert_pyformat_to_qmark sql params) as [[q seq]|e] eqn:E; [|done].
  destruct (cursor_execute cur q seq s1) as [s2 [[]|e]] eqn:Ex; [|done].
  destruct (autocommit obj) eqn:Hac.
  - destruct (commit (s2, CnnObj true (Some cur))) as [st [[]|e]] eqn:Hcm; [|done].
    injection H as <- <-. apply commit_ok_releases in Hcm as [Hcur Hauto].
    split_and!; [done|done|]. by exists s1, cur, q, seq, s2.
  - injection H as <- <-. split_and!; [done|done|]. by exists s1, cur, q, seq, s2.
Qed.

(** X10.  A failure of [update] or [delete] before or in the statement
    (a missing parameter, an error of the driver's [execute]) reaches the
    caller as it is: nothing is committed, with [autocommit] too, and the
    cursor of the call stays in the slot. *)
Theorem dml_failure_is_not_committed sql params (s0 s1 : D) obj (cur : Cursor) :
  cnn_cursor s0 = (s1, Ok cur) →
  (∀ e, _convert_pyformat_to_qmark sql params = Raise e →
        update sql params (s0, obj)
        = ((s1, CnnObj (autocommit obj) (Some cur)), Raise e))
  ∧ (∀ q seq s2 e,
       _convert_pyformat_to_qmark sql params = Ok (q, seq) →
       cursor_execute cur q seq s1 = (s2, Raise e) →
       update sql params (s0, obj)
       = ((s2, CnnObj (autocommit obj) (Some cur)), Raise e))
  ∧ delete sql params (s0, obj) = update sql params (s0, obj).
Proof.
  intros Hc. unfold update, delete. rewrite (execute_dml_run _ _ _ _ _ _ Hc).
  split_and!; [| |done].
  - by intros e ->.
  - by intros q seq s2 e -> ->.
Qed.

End RestFacts.

Section ReadFacts.
Import PyStr Re ReText SqlBuilder Cnn CnnRest PyStrip.
Context {V D Cursor : Type} `{!Driver V D Cursor} `{!Queries V D Cursor}.
Implicit Types (sql : string) (obj : cnn Cursor) (params : option (gmap string V)).

(** [read] once the cursor is there. *)
Lemma read_run sql params (flag : bool) (s0 s1 : D) obj (cur : Cursor) :
  cnn_cursor s0 = (s1, Ok cur) →
  read sql params flag (s0, obj)
  = let held := CnnObj (autocommit obj) (Some cur) in
    match _convert_pyformat_to_qmark sql params with
    | Raise e => ((s1, held), Raise e)
    | Ok (q, seq) =>
        match cursor_execute cur q seq s1 with
        | (s2, Raise e) => ((s2, held), Raise e)
        | (s2, Ok _) =>
            match cursor_fetchall cur s2 with
            | (s3, Raise e) => ((s3, held), Raise e)
            | (s3, Ok rows) =>
                match cursor_description cur s3 with
                | None => ((s3, held), Raise (TypeError "'NoneType' object is not iterable"))
                | Some names =>
                    match cursor_close cur s3 with
                    | (s4, Raise e) => ((s4, held), Raise e)
                    | (s4, Ok _) =>
                        let result := record_of (strip <$> names) <$> rows in
                        ((s4, CnnObj (autocommit obj) None),
                         Ok (if flag then FirstRecord (head result) else Records result))
                    end
                end
            end
        end
    end.
Proof.
  intros Hc. unfold read.
  rewrite (run_call_ok _ _ _ _ _ _ Hc), run_set_cursor. cbn zeta.
  destruct (_convert_pyformat_to_qmark sql params) as [[q seq]|e] eqn:E.
  2:{ by rewrite (execute_converted_raise _ _ _ _ E), run_raise. }
  rewrite (execute_converted_ok _ _ _ _ _ E).
  destruct (cursor_execute cur q seq s1) as [s2 [[]|e]] eqn:Ex.
  2:{ by rewrite (run_call_raise _ _ _ _ _ _ Ex). }
  rewrite (run_call_ok _ _ _ _ _ _ Ex).
  destruct (cursor_fetchall cur s2) as [s3 [rows|e]] eqn:Ef.
  2:{ by rewrite (run_call_raise _ _ _ _ _ _ Ef). }
  rewrite (run_call_ok _ _ _ _ _ _ Ef), run_read_driver.
  destruct (cursor_description cur s3) as [names|] eqn:Ed.
  2:{ by rewrite run_raise. }
  rewrite run_ret.
  destruct (cursor_close cur s3) as [s4 [[]|e]] eqn:Ecl.
  2:{ by rewrite (run_call_raise _ _ _ _ _ _ Ecl). }
  by rewrite (run_call_ok _ _ _ _ _ _ Ecl), run_set_cursor.
Qed.

(** X11.  When [read] returns, the cursor slot is cleared and the
    [autocommit] flag is as before; without [onlyFirstRow] it returns the
    list of records, and with it the first record of that list, or [None]
    for an empty list, in the same final state. *)
Theorem read_returns_and_releases sql params (s0 : D) obj :
  (∀ flag st' r, read sql params flag (s0, obj) = (st', Ok r) →
      _cursor st'.2 = None ∧ autocommit st'.2 = autocommit obj)
  ∧ (∀ st' r, read sql params false (s0, obj) = (st', Ok r) →
      ∃ result, r = Records result
        ∧ read sql params true (s0, obj) = (st', Ok (FirstRecord (head result))))
  ∧ (∀ st' e, read sql params false (s0, obj) = (st', Raise e) →
      read sql params true (s0, obj) = (st', Raise e)).
Proof.
  destruct (cnn_cursor s0) as [s1 [cur|e]] eqn:Hc.
  2:{ assert (∀ flag, read sql params flag (s0, obj) = ((s1, obj), Raise e)) as Hr.
      { intros flag. unfold read. by rewrite (run_call_raise _ _ _ _ _ _ Hc). }
      split_and!; intros; rewrite ?Hr in *; by simplify_eq. }
  pose proof (λ flag, read_run sql params flag s0 s1 obj cur Hc) as Hr. cbn zeta in Hr.
  destruct (_convert_pyformat_to_qmark sql params) as [[q seq]|e];
    [|split_and!; intros; rewrite ?Hr in *; by simplify_eq].
  destruct (cursor_execute cur q seq s1) as [s2 [[]|e]];
    [|split_and!; intros; rewrite ?Hr in *; by simplify_eq].
  destruct (cursor_fetchall cur s2) as [s3 [rows|e]];
    [|split_and!; intros; rewrite ?Hr in *; by simplify_eq].
  destruct (cursor_description cur s3) as [names|];
    [|split_and!; intros; rewrite ?Hr in *; by simplify_eq].
  destruct (cursor_close cur s3) as [s4 [[]|e]];
    [|split_and!; intros; rewrite ?Hr in *; by simplify_eq].
  split_and!.
  - intros flag st' r H. rewrite Hr in H. by simplify_eq.
  - intros st' r H. rewrite Hr in H. simplify_eq. eexists. split; [done|]. by rewrite Hr.
  - intros st' e H. rewrite Hr in H. by simplify_eq.
Qed.

(** X12.  Unlike [commit], [read] does not swallow an error of closing its
    cursor: the error reaches the caller, the records are lost and the
    cursor stays in the slot. *)
Theorem read_close_error_reaches_caller sql params (flag : bool)
    (s0 s1 s2 s3 s4 : D) obj (cur : Cursor) (q : string) (seq : py_params V)
    (rows : list (V * list V)) (names : list string) (e : exn) :
  cnn_cursor s0 = (s1, Ok cur) →
  _convert_pyformat_to_qmark sql params = Ok (q, seq) →
  cursor_execute cur q seq s1 = (s2, Ok tt) →
  cursor_fetchall cur s2 = (s3, Ok rows) →
  cursor_description cur s3 = Some names →
  cursor_close cur s3 = (s4, Raise e) →
  read sql params flag (s0, obj) = ((s4, CnnObj (autocommit obj) (Some cur)), Raise e).
Proof.
  intros Hc E Ex Ef Ed Ecl. rewrite (read_run _ _ _ _ _ _ _ Hc). cbn zeta.
  by rewrite E, Ex, Ef, Ed, Ecl.
Qed.

(** X13.  A failure of [getPrimaryKey] or its success leaves the object as
    it was (the slot [_cursor] is not used), and its result stands for the
    columns the query returned, in their order: none, one, or several. *)
Theorem primary_key_of_rows (table : V) (s0 : D) obj :
  (∀ st' r, getPrimaryKey table (s0, obj) = (st', r) → st'.2 = obj)
  ∧ (∀ st' pk, getPrimaryKey table (s0, obj) = (st', Ok pk) →
       ∃ s1 cur s2 s3 rows,
         cnn_cursor s0 = (s1, Ok cur)
         ∧ cursor_execute cur primary_key_sql (PSeq [table]) s1 = (s2, Ok tt)
         ∧ cursor_fetchall cur s2 = (s3, Ok rows)
         ∧ cursor_close cur s3 = (st'.1, Ok tt)
         ∧ key_columns pk = fst <$> rows
         ∧ (pk = NoKey ↔ rows = [])
         ∧ (∀ c, pk = KeyColumn c ↔ ∃ others, rows = [(c, others)])).
Proof.
  unfold getPrimaryKey.
  destruct (cnn_cursor s0) as [s1 [cur|e]] eqn:Hc.
  2:{ rewrite (run_call_raise _ _ _ _ _ _ Hc). split; [by intros ? ? [= <- _]|done]. }
  rewrite (run_call_ok _ _ _ _ _ _ Hc).
  destruct (cursor_execute cur primary_key_sql (PSeq [table]) s1) as [s2 [[]|e]] eqn:Ex.
  2:{ rewrite (run_call_raise _ _ _ _ _ _ Ex). split; [by intros ? ? [= <- _]|done]. }
  rewrite (run_call_ok _ _ _ _ _ _ Ex).
  destruct (cursor_fetchall cur s2) as [s3 [rows|e]] eqn:Ef.
  2:{ rewrite (run_call_raise _ _ _ _ _ _ Ef). split; [by intros ? ? [= <- _]|done]. }
  rewrite (run_call_ok _ _ _ _ _ _ Ef). cbn zeta.
  destruct (cursor_close cur s3) as [s4 [[]|e]] eqn:Ecl.
  2:{ rewrite (run_call_raise _ _ _ _ _ _ Ecl). split; [by intros ? ? [= <- _]|done]. }
  rewrite (run_call_ok _ _ _ _ _ _ Ecl). split; [by intros ? ? [= <- _]|].
  intros st' pk [= <- <-]. exists s1, cur, s2, s3, rows. cbn [fst].
  split_and!; [done..| | |].
  - by destruct rows as [|[c1 o1] [|[c2 o2] rows]].
  - by destruct rows as [|[c1 o1] [|[c2 o2] rows]].
  - intros c. destruct rows as [|[c1 o1] [|[c2 o2] rows]]; cbn; split;
      try done; try (by intros [? ?]).
    + intros [= ->]. by eexists.
    + by intros [others [= -> _]].
Qed.

(** X14.  [__del__] raises no [Exception] and leaves the object as it was;
    when closing the cursor raises one, the connection is closed all the
    same. *)
Theorem del_swallows_and_closes (s0 : D) obj :
  (∀ st' r, __del__ (s0, obj) = (st', r) →
     st'.2 = obj ∧ ∀ e, r = Raise e → is_Exception e = false)
  ∧ (∀ cur s1 e,
       _cursor obj = Some cur → cursor_close cur s0 = (s1, Raise e) →
       is_Exception e = true →
       (__del__ (s0, obj)).1.1 = (cnn_close s1).1)
  ∧ (_cursor obj = None → (__del__ (s0, obj)).1.1 = (cnn_close s0).1).
Proof.
  unfold __del__, try_except_Exception_pass, mbind, M_bind, bind, call, get_cursor, ret.
  cbn [fst snd]. split_and!.
  - intros st' r. destruct (_cursor obj) as [cur|]; cbn [fst snd].
    + destruct (cursor_close cur s0) as [s1 [[]|e]]; cbn [fst snd].
      * destruct (cnn_close s1) as [s2 [[]|e]]; cbn [fst snd].
        -- by intros [= <- <-].
        -- destruct (is_Exception e) eqn:He; intros [= <- <-]; [done|].
           split; [done|]. by intros ? [= <-].
      * destruct (is_Exception e) eqn:He; cbn [fst snd].
        -- destruct (cnn_close s1) as [s2 [[]|e2]]; cbn [fst snd].
           ++ by intros [= <- <-].
           ++ destruct (is_Exception e2) eqn:He2; intros [= <- <-]; [done|].
              split; [done|]. by intros ? [= <-].
        -- rewrite He. intros [= <- <-]. split; [done|]. by intros ? [= <-].
    + destruct (cnn_close s0) as [s2 [[]|e]]; cbn [fst snd].
      * by intros [= <- <-].
      * destruct (is_Exception e) eqn:He; intros [= <- <-]; [done|].
        split; [done|]. by intros ? [= <-].
  - intros cur s1 e Hcur Hcl He. rewrite Hcur. cbn [fst snd]. rewrite Hcl.
    cbn [fst snd]. rewrite He. cbn [fst snd].
    destruct (cnn_close s1) as [s2 [[]|e2]]; cbn [fst snd]; [done|].
    by destruct (is_Exception e2).
  - intros Hcur. rewrite Hcur. cbn [fst snd].
    destruct (cnn_close s0) as [s2 [[]|e2]]; cbn [fst snd]; [done|].
    by destruct (is_Exception e2).
Qed.

End ReadFacts.

Section CreateFacts.
Import PyStr Re ReText SqlBuilder Cnn CnnRest.
Context {V D Cursor : Type} `{!Driver V D Cursor} `{!Queries V D Cursor}.
Implicit Types (sql : string) (obj : cnn Cursor) (row : gmap string V).

Lemma seq_params_loop_ok (rows : list (gmap string V)) (names : list string)
    (tuples : list (list V)) (acc : list (py_params V)) :
  Forall2 (λ row t, Forall2 (λ name v, row !! name = Some v) names t) rows tuples →
  seq_params_loop rows names acc = Ok (acc ++ (PSeq <$> tuples)).
Proof.
  intros HF. revert acc. induction HF as [|row t rows tuples Ht _ IH]; intros acc.
  - simpl. by rewrite app_nil_r.
  - simpl. apply row_tuple_bound in Ht. rewrite Ht, IH.
    by rewrite <-app_assoc.
Qed.

Lemma complete_rows_tuples (rows : list (gmap string V)) (names : list string) :
  Forall (λ row, Forall (λ name, is_Some (row !! name)) names) rows →
  ∃ tuples, Forall2 (λ row t, Forall2 (λ name v, row !! name = Some v) names t) rows tuples.
Proof.
  induction 1 as [|row rows Hrow _ [tuples IH]]; [by exists []|].
  destruct (bound_or_first_missing (λ n, row !! n) names)
    as [[vs HF]|(l1 & name & l2 & -> & _ & Hm)].
  - exists (vs :: tuples). by constructor.
  - apply Forall_app in Hrow as [_ Hrow]. apply Forall_cons in Hrow as [[v Hv] _].
    congruence.
Qed.

(** [create] once the cursor is there: the statement, then the end. *)
Lemma create_run sql (data : create_data V) (s0 s1 : D) obj (cur : Cursor) :
  cnn_cursor s0 = (s1, Ok cur) →
  create sql data (s0, obj)
  = ((match data with
      | Rows rows =>
          match names_in_order sql with
          | [] => call (cursor_executemany cur sql (PDict <$> rows))
          | _ =>
              match seq_params_loop rows (names_in_order sql) [] with
              | Raise e => raise e
              | Ok seq_params =>
                  call (cursor_executemany cur (sub (λ _, "?") sql) seq_params)
              end
          end
      | Row d => execute_converted cur sql (Some d)
      | NotRows => raise (TypeError "Data for 'create' must be dict or list[dict]")
      end) ≫= λ _, create_finish cur) (s1, CnnObj (autocommit obj) (Some cur)).
Proof.
  intros Hc. unfold create. by rewrite (run_call_ok _ _ _ _ _ _ Hc), run_set_cursor.
Qed.

(** X15.  A batch whose rows all bind the names of the template is sent to
    the driver in one [executemany], with the translated text and one tuple
    per row, in row order, each holding the row's values in the order of
    the placeholders; a batch for a template without placeholders is sent
    as it is. *)
Theorem create_batch_sends_tuples sql (rows : list (gmap string V)) :
  Forall (λ row, Forall (λ name, is_Some (row !! name)) (names_in_order sql)) rows →
  ∃ tuples,
    Forall2 (λ row t, Forall2 (λ name v, row !! name = Some v) (names_in_order sql) t)
      rows tuples
    ∧ ∀ (s0 s1 : D) obj (cur : Cursor),
        cnn_cursor s0 = (s1, Ok cur) →
        create sql (Rows rows) (s0, obj)
        = ((if decide (names_in_order sql = [])
            then call (cursor_executemany cur sql (PDict <$> rows))
            else call (cursor_executemany cur (sub (λ _, "?") sql) (PSeq <$> tuples)))
             ≫= λ _, create_finish cur) (s1, CnnObj (autocommit obj) (Some cur)).
Proof.
  intros Hrows. destruct (complete_rows_tuples rows _ Hrows) as [tuples HF].
  exists tuples. split; [done|]. intros s0 s1 obj cur Hc.
  rewrite (create_run _ _ _ _ _ _ Hc).
  rewrite (seq_params_loop_ok rows _ tuples []) by done. cbn [app].
  by destruct (names_in_order sql).
Qed.

(** X16.  A failure of [create] after the cursor is acquired reaches the
    caller as it is and nothing is committed, with [autocommit] too: data
    that is neither a mapping nor a list raises [TypeError] before anything
    is executed, and an error of the driver's [execute] or [executemany] is
    passed on. *)
Theorem create_failure_is_not_committed sql (s0 s1 : D) obj (cur : Cursor) :
  cnn_cursor s0 = (s1, Ok cur) →
  create sql NotRows (s0, obj)
  = ((s1, CnnObj (autocommit obj) (Some cur)),
     Raise (TypeError "Data for 'create' must be dict or list[dict]"))
  ∧ (∀ d q seq s2 e,
       _convert_pyformat_to_qmark sql (Some d) = Ok (q, seq) →
       cursor_execute cur q seq s1 = (s2, Raise e) →
       create sql (Row d) (s0, obj) = ((s2, CnnObj (autocommit obj) (Some cur)), Raise e))
  ∧ (∀ rows s2 e,
       names_in_order sql = [] →
       cursor_executemany cur sql (PDict <$> rows) s1 = (s2, Raise e) →
       create sql (Rows rows) (s0, obj)
       = ((s2, CnnObj (autocommit obj) (Some cur)), Raise e)).
Proof.
  intros Hc. split_and!.
  - by rewrite (create_run _ _ _ _ _ _ Hc).
  - intros d q seq s2 e E Ex. rewrite (create_run _ _ _ _ _ _ Hc).
    by rewrite (execute_converted_ok _ _ _ _ _ E), (run_call_raise _ _ _ _ _ _ Ex).
  - intros rows s2 e Hn Ex. rewrite (create_run _ _ _ _ _ _ Hc), Hn.
    by rewrite (run_call_raise _ _ _ _ _ _ Ex).
Qed.

Lemma create_finish_ok (cur : Cursor) (s2 : D) (held : cnn Cursor)
    (st' : D * cnn Cursor) (last_id : option V) :
  create_finish cur (s2, held) = (st', Ok last_id) →
  last_id = from_option id None (cursor_lastrowid cur s2)
  ∧ autocommit st'.2 = autocommit held
  ∧ (autocommit held = true → _cursor st'.2 = None ∧ commit (s2, held) = (st', Ok tt))
  ∧ (autocommit held = false → st' = (s2, held)).
Proof.
  unfold create_finish. rewrite run_read_driver, run_get_autocommit.
  destruct held as [[] c]; cbn [autocommit].
  - unfold mbind, M_bind, bind.
    destruct (commit (s2, CnnObj true c)) as [st [[]|e]] eqn:Hcm; [|done].
    intros [= <- <-]. by apply commit_ok_releases in Hcm as [Hcur Hauto].
  - by intros [= <- <-].
Qed.

(** The statement of [create] went through: what was sent to the driver,
    from the state [s1] to the state [s2]. *)
Lemma create_statement_ok sql (data : create_data V) (cur : Cursor) (s1 s2 : D)
    (held held' : cnn Cursor) :
  (match data with
   | Rows rows =>
       match names_in_order sql with
       | [] => call (cursor_executemany cur sql (PDict <$> rows))
       | _ =>
           match seq_params_loop rows (names_in_order sql) [] with
           | Raise e => raise e
           | Ok seq_params =>
               call (cursor_executemany cur (sub (λ _, "?") sql) seq_params)
           end
       end
   | Row d => execute_converted cur sql (Some d)
   | NotRows => raise (TypeError "Data for 'create' must be dict or list[dict]")
   end) (s1, held) = ((s2, held'), Ok tt) →
  held' = held
  ∧ match data with
    | Rows rows =>
        (names_in_order sql = []
         ∧ cursor_executemany cur sql (PDict <$> rows) s1 = (s2, Ok tt))
        ∨ (names_in_order sql ≠ []
           ∧ ∃ seq_params,
               seq_params_loop rows (names_in_order sql) [] = Ok seq_params
               ∧ cursor_executemany cur (sub (λ _, "?") sql) seq_params s1 = (s2, Ok tt))
    | Row d =>
        ∃ q seq,
          _convert_pyformat_to_qmark sql (Some d) = Ok (q, seq)
          ∧ cursor_execute cur q seq s1 = (s2, Ok tt)
    | NotRows => False
    end.
Proof.
  destruct data as [rows|d|]; [| |done].
  - destruct (names_in_order sql) as [|n ns] eqn:En.
    + unfold call. cbn [fst snd].
      destruct (cursor_executemany cur sql (PDict <$> rows) s1) as [s r] eqn:Ex.
      intros [= -> <- ->]. split; [done|]. by left.
    + destruct (seq_params_loop rows (n :: ns) []) as [seq_params|e] eqn:El; [|done].
      unfold call. cbn [fst snd].
      destruct (cursor_executemany cur (sub (λ _, "?") sql) seq_params s1)
        as [s r] eqn:Ex.
      intros [= -> <- ->]. split; [done|]. right. split; [done|]. by exists seq_params.
  - unfold execute_converted.
    destruct (_convert_pyformat_to_qmark sql (Some d)) as [[q seq]|e] eqn:E; [|done].
    unfold call. cbn [fst snd]. destruct (cursor_execute cur q seq s1) as [s r] eqn:Ex.
    intros [= -> <- ->]. split; [done|]. by exists q, seq.
Qed.

(** X17.  When [create] returns, the statement went through: the driver
    gave a cursor, and the translated statement (a single row), or the
    batch in one [executemany], took the driver to a state [s2].  The
    result is the cursor's [lastrowid] in that state ([None] where the
    cursor has no such attribute), read before any commit: with
    [autocommit] the commit starts from [s2], returns, and leaves the
    cursor slot cleared; without it the final state is [s2] with the
    cursor of the call in the slot.  The [autocommit] flag is as before. *)
Theorem create_returns_last_id sql (data : create_data V) (s0 : D) obj
    (st' : D * cnn Cursor) (last_id : option V) :
  create sql data (s0, obj) = (st', Ok last_id) →
  autocommit st'.2 = autocommit obj
  ∧ ∃ s1 cur s2,
      cnn_cursor s0 = (s1, Ok cur)
      ∧ match data with
        | Rows rows =>
            (names_in_order sql = []
             ∧ cursor_executemany cur sql (PDict <$> rows) s1 = (s2, Ok tt))
            ∨ (names_in_order sql ≠ []
               ∧ ∃ seq_params,
                   seq_params_loop rows (names_in_order sql) [] = Ok seq_params
                   ∧ cursor_executemany cur (sub (λ _, "?") sql) seq_params s1
                     = (s2, Ok tt))
        | Row d =>
            ∃ q seq,
              _convert_pyformat_to_qmark sql (Some d) = Ok (q, seq)
              ∧ cursor_execute cur q seq s1 = (s2, Ok tt)
        | NotRows => False
        end
      ∧ last_id = from_option id None (cursor_lastrowid cur s2)
      ∧ (autocommit obj = true →
         commit (s2, CnnObj true (Some cur)) = (st', Ok tt) ∧ _cursor st'.2 = None)
      ∧ (autocommit obj = false → st' = (s2, CnnObj false (Some cur))).
Proof.
  intros H. destruct (cnn_cursor s0) as [s1 [cur|e]] eqn:Hc.
  2:{ unfold create in H. by rewrite (run_call_raise _ _ _ _ _ _ Hc) in H. }
  rewrite (create_run _ _ _ _ _ _ Hc) in H.
  unfold mbind at 1, M_bind at 1, bind at 1 in H.
  match type of H with
  | context [match ?m ?s with _ => _ end] => destruct (m s) as [[s2 held] [[]|e]] eqn:Hb
  end; [|done].
  apply create_statement_ok in Hb as [-> Hstmt].
  apply create_finish_ok in H as (Hl & Ha & Ht & Hf). cbn [autocommit] in *.
  split; [done|]. exists s1, cur, s2. split_and!; [done|done|done| |].
  - intros Hac. rewrite Hac in Ht. destruct (Ht eq_refl) as [Hslot Hcm]. done.
  - intros Hac. rewrite Hf by done. by rewrite Hac.
Qed.

End CreateFacts.

(** *** The records of [read] *)
Section RecordFacts.
Import PyStr Cnn CnnRest PyStrip.

Lemma rev_app_spec (s acc : string) : String.rev_app s acc = String.rev s +:+ acc.
Proof.
  revert acc. induction s as [|a s IH]; intros acc; [done|].
  unfold String.rev. cbn [String.rev_app].
  rewrite (IH (String a acc)), (IH (String a EmptyString)). by rewrite sapp_assoc.
Qed.

Lemma rev_cons (a : ascii) (s : string) :
  String.rev (String a s) = String.rev s +:+ String a EmptyString.
Proof. unfold String.rev at 1. cbn [String.rev_app]. apply rev_app_spec. Qed.

Lemma rev_app_distr (s t : string) :
  String.rev (s +:+ t) = String.rev t +:+ String.rev s.
Proof.
  induction s as [|a s IH]; [by rewrite sapp_nil_r|].
  rewrite sapp_cons, !rev_cons, IH. by rewrite sapp_assoc.
Qed.

Lemma rev_involutive (s : string) : String.rev (String.rev s) = s.
Proof.
  induction s as [|a s IH]; [done|]. by rewrite rev_cons, rev_app_distr, IH.
Qed.

Lemma all_space_app (s t : string) :
  all_space (s +:+ t) = all_space s && all_space t.
Proof.
  induction s as [|a s IH]; [done|]. rewrite sapp_cons. simpl.
  by rewrite IH, andb_assoc.
Qed.

Lemma all_space_rev (s : string) : all_space (String.rev s) = all_space s.
Proof.
  induction s as [|a s IH]; [done|].
  rewrite rev_cons, all_space_app, IH. simpl. by rewrite andb_true_r, andb_comm.
Qed.

Lemma lstrip_all_space (p t : string) :
  all_space p = true → lstrip (p +:+ t) = lstrip t.
Proof.
  induction p as [|a p IH]; [done|]. intros H. simpl in H.
  apply andb_true_iff in H as [Ha Hp].
  rewrite sapp_cons. simpl. rewrite Ha. by apply IH.
Qed.

Lemma lstrip_length (s : string) : String.length (lstrip s) ≤ String.length s.
Proof.
  induction s as [|a s IH]; [done|]. simpl. destruct (isspace a); simpl; lia.
Qed.

Lemma lstrip_keep (s t : string) :
  lstrip s = s → s ≠ EmptyString → lstrip (s +:+ t) = s +:+ t.
Proof.
  destruct s as [|a s]; [done|]. intros H _. rewrite sapp_cons. simpl in *.
  destruct (isspace a); [|done].
  pose proof (lstrip_length s) as Hl. rewrite H in Hl. simpl in Hl. lia.
Qed.

(** X18.  [strip] takes the padding off a column name and nothing else:
    whitespace before and after a text that itself neither begins nor ends
    with whitespace is removed, and the text is left. *)
Theorem strip_removes_padding (p1 s p2 : string) :
  all_space p1 = true → all_space p2 = true →
  lstrip s = s → lstrip (String.rev s) = String.rev s →
  strip (p1 +:+ s +:+ p2) = s.
Proof.
  intros H1 H2 Hl Hr. unfold strip, rstrip. rewrite lstrip_all_space by done.
  destruct (decide (s = EmptyString)) as [->|Hne].
  - change (EmptyString +:+ p2) with p2.
    rewrite <-(sapp_nil_r p2) at 1. by rewrite lstrip_all_space.
  - rewrite lstrip_keep, rev_app_distr by done.
    rewrite lstrip_all_space by (by rewrite all_space_rev).
    by rewrite Hr, rev_involutive.
Qed.

Lemma py_dict_snoc {V} (items : list (string * V)) (k : string) (v : V) :
  py_dict (items ++ [(k, v)]) = <[k := v]> (py_dict items).
Proof. unfold py_dict. by rewrite fold_left_app. Qed.

Lemma py_dict_lookup_last {V} (items : list (string * V)) (i : nat) (k : string) (v : V) :
  items !! i = Some (k, v) →
  (∀ j kv, i < j → items !! j = Some kv → kv.1 ≠ k) →
  py_dict items !! k = Some v.
Proof.
  induction items as [|[k0 v0] items IH] using rev_ind; [done|].
  intros Hi Hlast. rewrite py_dict_snoc.
  destruct (decide (i = length items)) as [->|Hne].
  - rewrite lookup_app_r, Nat.sub_diag in Hi by done. injection Hi as -> ->.
    apply lookup_insert_eq.
  - assert (i < length items) as Hlt.
    { apply lookup_lt_Some in Hi. rewrite length_app in Hi. simpl in Hi. lia. }
    rewrite lookup_app_l in Hi by done.
    rewrite lookup_insert_ne.
    + apply IH; [done|]. intros j kv Hj Hkv. apply (Hlast j); [done|].
      by apply lookup_app_l_Some.
    + apply (Hlast (length items) (k0, v0)); [done|].
      by rewrite lookup_app_r, Nat.sub_diag.
Qed.

Lemma py_dict_lookup_none {V} (items : list (string * V)) (k : string) :
  k ∉ items.*1 → py_dict items !! k = None.
Proof.
  induction items as [|[k0 v0] items IH] using rev_ind; [done|].
  rewrite fmap_app, not_elem_of_app. intros [Hk Hk0]. rewrite py_dict_snoc.
  rewrite lookup_insert_ne; [by apply IH|]. intros ->. apply Hk0. by left.
Qed.

(** What [dict(zip(col_names, row))] holds, for the stripped names. *)
Lemma record_of_lookup {V} (names : list string) (row : V * list V) :
  (∀ i name v,
     names !! i = Some name → (row.1 :: row.2) !! i = Some v →
     (∀ j name', i < j → j < length (row.1 :: row.2) →
                 names !! j = Some name' → strip name' ≠ strip name) →
     record_of (strip <$> names) row !! strip name = Some v)
  ∧ (∀ key, key ∉ strip <$> names → record_of (strip <$> names) row !! key = None).
Proof.
  unfold record_of. split.
  - intros i name v Hn Hv Hlast. apply (py_dict_lookup_last _ i).
    + apply lookup_zip_Some. by rewrite list_lookup_fmap, Hn.
    + intros j [k' v'] Hj [Hk' Hv']%lookup_zip_Some. cbn [fst].
      rewrite list_lookup_fmap in Hk'.
      destruct (names !! j) as [name'|] eqn:Hnj; [|done]. injection Hk' as <-.
      apply (Hlast j); [done| |done]. by apply lookup_lt_Some in Hv'.
  - intros key Hkey. apply py_dict_lookup_none. intros Hin. apply Hkey.
    apply list_elem_of_fmap in Hin as ([k v] & -> & Hin).
    apply list_elem_of_lookup in Hin as [i [Hk _]%lookup_zip_Some].
    by eapply list_elem_of_lookup_2.
Qed.

End RecordFacts.

Section ReadRecords.
Import PyStr Re SqlBuilder Cnn CnnRest PyStrip.
Context {V D Cursor : Type} `{!Driver V D Cursor} `{!Queries V D Cursor}.

(** X19.  When [read] returns its records, the statement was executed,
    the rows fetched and the description read from the cursor, and there
    is one record per row, in row order.  The record of a row maps the
    stripped name of a column of the description to the value the row has
    at that column's position; where several columns within the row's
    length have the same stripped name the last one is kept; a key that is
    no stripped column name is not in the record. *)
Theorem record_maps_columns (sql : string) (params : option (gmap string V))
    (s0 : D) (obj : cnn Cursor) (st' : D * cnn Cursor) (recs : list (gmap string V)) :
  read sql params false (s0, obj) = (st', Ok (Records recs)) →
  ∃ s1 cur q seq s2 s3 rows names,
    cnn_cursor s0 = (s1, Ok cur)
    ∧ _convert_pyformat_to_qmark sql params = Ok (q, seq)
    ∧ cursor_execute cur q seq s1 = (s2, Ok tt)
    ∧ cursor_fetchall cur s2 = (s3, Ok rows)
    ∧ cursor_description cur s3 = Some names
    ∧ length recs = length rows
    ∧ ∀ k row, rows !! k = Some row →
        ∃ rec, recs !! k = Some rec
          ∧ (∀ i name v,
               names !! i = Some name → (row.1 :: row.2) !! i = Some v →
               (∀ j name', i < j → j < length (row.1 :: row.2) →
                           names !! j = Some name' → strip name' ≠ strip name) →
               rec !! strip name = Some v)
          ∧ (∀ key, key ∉ strip <$> names → rec !! key = None).
Proof.
  intros H. destruct (cnn_cursor s0) as [s1 [cur|e]] eqn:Hc.
  2:{ unfold read in H. by rewrite (run_call_raise _ _ _ _ _ _ Hc) in H. }
  rewrite (read_run _ _ _ _ _ _ _ Hc) in H. cbn zeta in H.
  destruct (_convert_pyformat_to_qmark sql params) as [[q seq]|e] eqn:E; [|done].
  destruct (cursor_execute cur q seq s1) as [s2 [[]|e]] eqn:Ex; [|done].
  destruct (cursor_fetchall cur s2) as [s3 [rows|e]] eqn:Ef; [|done].
  destruct (cursor_description cur s3) as [names|] eqn:Ed; [|done].
  destruct (cursor_close cur s3) as [s4 [[]|e]] eqn:Ecl; [|done].
  injection H as _ <-.
  exists s1, cur, q, seq, s2, s3, rows, names. split_and!; [done..| |].
  - by rewrite length_fmap.
  - intros k row Hrow. exists (record_of (strip <$> names) row).
    split; [by rewrite list_lookup_fmap, Hrow|]. apply record_of_lookup.
Qed.

End ReadRecords.

(** *** A connection without a cursor *)
Section CursorFailure.
Import PyStr Re SqlBuilder Cnn CnnRest.
Context {V D Cursor : Type} `{!Driver V D Cursor} `{!Queries V D Cursor}.

(** X20.  Every method that asks the connection for a cursor passes on a
    failure to get one, before the translation and before any statement:
    the error reaches the caller as it is and the object is left as it
    was, a cursor held from an earlier call included. *)
Theorem cursor_failure_leaves_object (sql : string) (params : option (gmap string V))
    (data : create_data V) (flag : bool) (table : V) (s0 s1 : D) (obj : cnn Cursor)
    (e : exn) :
  cnn_cursor s0 = (s1, Raise e) →
  create sql data (s0, obj) = ((s1, obj), Raise e)
  ∧ read sql params flag (s0, obj) = ((s1, obj), Raise e)
  ∧ CnnRest.update sql params (s0, obj) = ((s1, obj), Raise e)
  ∧ CnnRest.delete sql params (s0, obj) = ((s1, obj), Raise e)
  ∧ getPrimaryKey table (s0, obj) = ((s1, obj), Raise e).
Proof.
  intros Hc.
  unfold CnnRest.update, CnnRest.delete, _execute_dml, create, read, getPrimaryKey.
  by rewrite !(run_call_raise _ _ _ _ _ _ Hc).
Qed.

End CursorFailure.

(** *** The text of a clause, condition by condition *)
Section ClauseShape.
Import PyStr Re SqlBuilder WhereKeys.
Context {V : Type}.

(** X21.  The text of a clause is [WHERE] followed by one fragment per
    condition, in order; conditions added at the end leave the text of the
    earlier ones as it is, and the list of no condition gives the bare
    [WHERE]. *)
Theorem where_clause_is_concatenation (pre conds : list (condition V)) :
  whereCondition (V:=V) [] = "WHERE"
  ∧ whereCondition (pre ++ conds) = whereCondition pre +:+ clause_from pre conds
  ∧ whereCondition conds = "WHERE" +:+ clause_from [] conds.
Proof.
  split; [done|]. split; [apply where_loop_clause|].
  unfold whereCondition. rewrite <-(app_nil_l conds) at 1. by rewrite where_loop_clause.
Qed.

End ClauseShape.

(** *** The names the pattern reads *)
Section PlaceholderNames.
Import PyStr Re.

Lemma finditer_from_shape (fuel pos : nat) (s : string) :
  Forall (λ m, m_group1 m ≠ EmptyString ∧ count_char ")" (m_group1 m) = 0)
    (finditer_from fuel pos s).
Proof.
  revert pos s. induction fuel as [|fuel IH]; intros pos s; [constructor|].
  destruct s as [|a s]; [constructor|]. cbn [finditer_from].
  destruct (match_here (String a s)) as [[name rest]|] eqn:E; [|apply IH].
  apply match_here_sound in E as (_ & Hne & Hc). constructor; [done|apply IH].
Qed.

(** X22.  The names the translator looks up are exactly the non-empty
    texts without [')']: a text is the name of a placeholder of some
    template if and only if it has this shape, so a key of a value source
    that is empty or contains [')'] is never looked up. *)
Theorem placeholder_names_shape (name : string) :
  (∃ sql, name ∈ names_in_order sql)
  ↔ name ≠ EmptyString ∧ count_char ")" name = 0.
Proof.
  split.
  - intros [sql Hin]. unfold names_in_order in Hin.
    apply list_elem_of_fmap in Hin as (m & -> & Hm).
    pose proof (finditer_from_shape (String.length sql) 0 sql) as HF.
    rewrite Forall_forall in HF. by apply HF.
  - intros [Hne Hc]. exists (pyformat name).
    rewrite <-(sapp_nil_r (pyformat name)), names_pyformat by done. by left.
Qed.

End PlaceholderNames.

(** *** Instances of the properties of Part III *)
Section Instances.
Import PyStr Re SqlBuilder Cnn CnnRest PyStrip WhereKeys Examples MoreExamples.

(** The instance of X1 for the template that uses [x] twice. *)
Lemma translated_text_is_final_witness :
  names_in_order "u = ? OR v = ?" = []
  ∧ ∀ params' : option (gmap string Z),
      ∃ b, _convert_pyformat_to_qmark "u = ? OR v = ?" params'
           = Ok ("u = ? OR v = ?", b).
Proof.
  apply (translated_text_is_final twice_x (Some x_is_5) "u = ? OR v = ?" [5%Z; 5%Z]).
  vm_compute. reflexivity.
Defined.

(** The instance of X2: a source that binds [y] as well is translated as
    the one that binds [x] only. *)
Lemma translation_ignores_other_keys_witness :
  _convert_pyformat_to_qmark twice_x (Some x_is_5)
  = _convert_pyformat_to_qmark twice_x (Some x_and_y).
Proof.
  apply (translation_ignores_other_keys twice_x x_is_5 x_and_y).
  - apply map_non_empty_singleton.
  - apply insert_non_empty.
  - vm_compute. discriminate.
  - assert (Forall (λ name, x_is_5 !! name = x_and_y !! name) (names_in_order twice_x))
      as HF by (vm_compute; repeat constructor).
    exact (proj1 (Forall_forall _ _) HF).
Defined.

(** The instance of X3 for the same template and row. *)
Lemma batch_row_agrees_with_single_row_witness :
  (∀ vs, row_tuple x_is_5 (names_in_order twice_x) = Ok vs ↔
         _convert_pyformat_to_qmark twice_x (Some x_is_5)
         = Ok (sub (λ _, "?") twice_x, PSeq vs))
  ∧ (∀ name, row_tuple x_is_5 (names_in_order twice_x) = Raise (KeyError name) →
             _convert_pyformat_to_qmark twice_x (Some x_is_5)
             = Raise (missing_parameter name twice_x))
  ∧ (∀ e, _convert_pyformat_to_qmark twice_x (Some x_is_5) = Raise e →
          ∃ name, e = missing_parameter name twice_x
                  ∧ row_tuple x_is_5 (names_in_order twice_x) = Raise (KeyError name)).
Proof.
  apply (batch_row_agrees_with_single_row twice_x x_is_5).
  - apply map_non_empty_singleton.
  - vm_compute. discriminate.
Defined.

(** The instance of X4 for table [t] and the columns [a] and [b]. *)
Lemma insert_then_translate_witness :
  ∃ tpl,
    SqlBuilder.insert "t" (DataDict ["a"; "b"]) = Ok tpl
    ∧ SqlBuilder.insert "t" (DataList [["a"; "b"]]) = Ok tpl
    ∧ names_in_order tpl = ["a"; "b"]
    ∧ _convert_pyformat_to_qmark tpl (Some a_and_b)
      = Ok ("INSERT INTO " +:+ quoted "t" +:+ " (" +:+ join "," (quoted <$> ["a"; "b"])
              +:+ ") VALUES(" +:+ join "," ((λ _, "?") <$> ["a"; "b"]) +:+ ")",
            PSeq [1%Z; 2%Z]).
Proof.
  apply (insert_then_translate "t" ["a"; "b"] [] a_and_b [1%Z; 2%Z]).
  - reflexivity.
  - discriminate.
  - repeat constructor; discriminate.
  - repeat constructor.
Defined.

(** The instance of X5 for table [t] and the columns [a] and [b]. *)
Lemma update_then_translate_witness :
  ∃ tpl,
    SqlBuilder.update "t" (DataDict ["a"; "b"]) = Ok tpl
    ∧ names_in_order tpl = ["a"; "b"]
    ∧ _convert_pyformat_to_qmark tpl (Some a_and_b)
      = Ok ("UPDATE " +:+ quoted "t" +:+ " SET "
              +:+ join "," ((λ k, quoted k +:+ " = ?") <$> ["a"; "b"]),
            PSeq [1%Z; 2%Z]).
Proof.
  apply (update_then_translate "t" ["a"; "b"] a_and_b [1%Z; 2%Z]).
  - reflexivity.
  - discriminate.
  - repeat constructor; discriminate.
  - repeat constructor.
Defined.

(** The instance of X6 for a scalar condition followed by a list of two
    elements. *)
Lemma where_clause_keys_witness :
  where_keys scalar_then_list = ["param_id"; "param_n_0"; "param_n_1"]
  ∧ names_in_order (whereCondition scalar_then_list) = where_keys scalar_then_list
  ∧ _convert_pyformat_to_qmark (whereCondition scalar_then_list)
      (Some scalar_then_list_source)
    = Ok (sub (λ _, "?") (whereCondition scalar_then_list), PSeq [5%Z; 1%Z; 2%Z]).
Proof.
  split; [vm_compute; reflexivity|].
  refine (match where_clause_keys scalar_then_list scalar_then_list_source
                  [5%Z; 1%Z; 2%Z] _ with
          | conj Hnames Hbind => conj Hnames (Hbind _ _)
          end).
  - repeat constructor.
  - vm_compute. discriminate.
  - vm_compute. repeat constructor.
Defined.


(** The instance of X9: a [delete] without [autocommit] on the driver that
    holds two rows. *)
Lemma dml_returns_count_before_commit_witness :
  CnnRest.delete "DELETE FROM t" None (two_rows, closed_object)
  = ((two_rows, CnnObj false (Some 0%nat)), Ok 2%Z)
  ∧ autocommit (two_rows, CnnObj false (Some 0%nat)).2 = autocommit closed_object
  ∧ (autocommit closed_object = true →
     _cursor (two_rows, CnnObj false (Some 0%nat)).2 = None)
  ∧ ∃ s1 cur q seq s2,
      cnn_cursor two_rows = (s1, Ok cur)
      ∧ _convert_pyformat_to_qmark (V:=Z) "DELETE FROM t" None = Ok (q, seq)
      ∧ cursor_execute cur q seq s1 = (s2, Ok tt)
      ∧ 2%Z = cursor_rowcount cur s2
      ∧ (autocommit closed_object = false →
         (two_rows, CnnObj false (Some 0%nat)) = (s2, CnnObj false (Some cur))).
Proof.
  apply (dml_returns_count_before_commit "DELETE FROM t" None two_rows closed_object
           (two_rows, CnnObj false (Some 0%nat)) 2%Z).
  vm_compute. reflexivity.
Defined.

(** The instance of X10: an [update] whose value source lacks the name of
    the template, with [autocommit]. *)
Lemma dml_failure_is_not_committed_witness :
  CnnRest.update "%(a)s" (Some {["b" := 1%Z]}) (true, with_cursor)
  = ((true, CnnObj true (Some 0%nat)), Raise (missing_parameter "a" "%(a)s")).
Proof.
  refine (proj1 (dml_failure_is_not_committed "%(a)s" (Some {["b" := 1%Z]})
                   true true with_cursor 0%nat _) _ _).
  - reflexivity.
  - vm_compute. reflexivity.
Defined.

(** The instance of X11 for the driver that holds two rows. *)
Lemma read_returns_and_releases_witness :
  ∃ result,
    Records (record_of ["ID"; "N"] <$> two_rows) = Records result
    ∧ read "SELECT * FROM t" None true (two_rows, closed_object)
      = ((two_rows, closed_object), Ok (FirstRecord (head result))).
Proof.
  apply (proj1 (proj2 (read_returns_and_releases "SELECT * FROM t" None two_rows
                         closed_object))).
  vm_compute. reflexivity.
Defined.

(** The instance of X12 for the driver whose cursors fail to close. *)
Lemma read_close_error_reaches_caller_witness :
  read (V:=Z) "SELECT 1" None false (true, closed_object)
  = ((true, CnnObj false (Some 0%nat)), Raise (DriverError "close failed")).
Proof.
  apply (read_close_error_reaches_caller (V:=Z) "SELECT 1" None false
           true true true true true closed_object 0%nat "SELECT 1" PNone [] []
           (DriverError "close failed")); reflexivity.
Defined.

(** The instance of X13 for the driver that holds two rows: a key of two
    columns. *)
Lemma primary_key_of_rows_witness :
  ∃ s1 cur s2 s3 rows,
    cnn_cursor two_rows = (s1, Ok cur)
    ∧ cursor_execute cur primary_key_sql (PSeq [7%Z]) s1 = (s2, Ok tt)
    ∧ cursor_fetchall cur s2 = (s3, Ok rows)
    ∧ cursor_close cur s3 = ((two_rows, with_cursor).1, Ok tt)
    ∧ key_columns (KeyColumns [1%Z; 3%Z]) = fst <$> rows
    ∧ (KeyColumns [1%Z; 3%Z] = NoKey ↔ rows = [])
    ∧ (∀ c, KeyColumns [1%Z; 3%Z] = KeyColumn c ↔ ∃ others, rows = [(c, others)]).
Proof.
  apply (proj2 (primary_key_of_rows 7%Z two_rows with_cursor)
           (two_rows, with_cursor) (KeyColumns [1%Z; 3%Z])).
  vm_compute. reflexivity.
Defined.

(** The instance of X14 for the driver whose cursors fail to close: the
    connection is closed. *)
Lemma del_swallows_and_closes_witness :
  (__del__ (V:=Z) (true, with_cursor)).1.1 = (cnn_close (V:=Z) (Cursor:=nat) true).1.
Proof.
  apply (proj1 (proj2 (del_swallows_and_closes (V:=Z) true with_cursor))
           0%nat true (DriverError "close failed")); reflexivity.
Defined.

(** The instance of X15 for a batch of two rows. *)
Lemma create_batch_sends_tuples_witness :
  ∃ tuples,
    Forall2 (λ row t, Forall2 (λ name v, row !! name = Some v) (names_in_order insert_a) t)
      batch_of_two tuples
    ∧ ∀ (s0 s1 : bool) (obj : cnn nat) (cur : nat),
        cnn_cursor s0 = (s1, Ok cur) →
        create insert_a (Rows batch_of_two) (s0, obj)
        = ((if decide (names_in_order insert_a = [])
            then call (cursor_executemany cur insert_a (PDict <$> batch_of_two))
            else call (cursor_executemany cur (sub (λ _, "?") insert_a) (PSeq <$> tuples)))
             ≫= λ _, create_finish cur) (s1, CnnObj (autocommit obj) (Some cur)).
Proof.
  apply (create_batch_sends_tuples (D:=bool) (Cursor:=nat) insert_a batch_of_two).
  vm_compute. repeat constructor; eexists; reflexivity.
Defined.

(** The instance of X16: data that is neither a mapping nor a list. *)
Lemma create_failure_is_not_committed_witness :
  create (V:=Z) insert_a NotRows (true, with_cursor)
  = ((true, CnnObj true (Some 0%nat)),
     Raise (TypeError "Data for 'create' must be dict or list[dict]")).
Proof.
  refine (proj1 (create_failure_is_not_committed (V:=Z) insert_a true true with_cursor
                   0%nat _)).
  reflexivity.
Defined.

(** The instance of X17 for the driver that counts: a single row, with
    [autocommit].  The result is the state after the statement, not the
    one after the commit. *)
Lemma create_returns_last_id_witness :
  autocommit (101%N, CnnObj true (None : option nat)).2 = autocommit with_cursor
  ∧ ∃ s1 cur s2,
      cnn_cursor 0%N = (s1, Ok cur)
      ∧ (∃ q seq,
           _convert_pyformat_to_qmark insert_a (Some {["a" := 1%Z]}) = Ok (q, seq)
           ∧ cursor_execute cur q seq s1 = (s2, Ok tt))
      ∧ Some 1%Z = from_option id None (cursor_lastrowid cur s2)
      ∧ (autocommit with_cursor = true →
         commit (s2, CnnObj true (Some cur)) = ((101%N, CnnObj true None), Ok tt)
         ∧ _cursor (101%N, CnnObj true (None : option nat)).2 = None)
      ∧ (autocommit with_cursor = false →
         (101%N, CnnObj true None) = (s2, CnnObj false (Some cur))).
Proof.
  apply (create_returns_last_id insert_a (Row {["a" := 1%Z]}) 0%N with_cursor
           (101%N, CnnObj true None) (Some 1%Z)).
  vm_compute. reflexivity.
Defined.

(** The instance of X18 for a padded column name. *)
Lemma strip_removes_padding_witness :
  strip (" " +:+ "ID" +:+ "   ") = "ID".
Proof. apply (strip_removes_padding " " "ID" "   "); reflexivity. Defined.

(** The instance of X19 for the driver that holds two rows under the
    padded column names [ID] and [N]. *)
Lemma record_maps_columns_witness :
  ∃ s1 cur q seq s2 s3 rows names,
    cnn_cursor two_rows = (s1, Ok cur)
    ∧ _convert_pyformat_to_qmark (V:=Z) "SELECT * FROM t" None = Ok (q, seq)
    ∧ cursor_execute cur q seq s1 = (s2, Ok tt)
    ∧ cursor_fetchall cur s2 = (s3, Ok rows)
    ∧ cursor_description cur s3 = Some names
    ∧ length (record_of ["ID"; "N"] <$> two_rows) = length rows
    ∧ ∀ k row, rows !! k = Some row →
        ∃ rec, (record_of ["ID"; "N"] <$> two_rows) !! k = Some rec
          ∧ (∀ i name v,
               names !! i = Some name → (row.1 :: row.2) !! i = Some v →
               (∀ j name', i < j → j < length (row.1 :: row.2) →
                           names !! j = Some name' → strip name' ≠ strip name) →
               rec !! strip name = Some v)
          ∧ (∀ key, key ∉ strip <$> names → rec !! key = None).
Proof.
  apply (record_maps_columns "SELECT * FROM t" None two_rows closed_object
           (two_rows, closed_object) (record_of ["ID"; "N"] <$> two_rows)).
  vm_compute. reflexivity.
Defined.

(** The second record of that result holds the value of column [N] under
    the name without its padding. *)
Example read_second_record :
  ∃ recs,
    read "SELECT * FROM t" None false (two_rows, closed_object)
    = ((two_rows, closed_object), Ok (Records recs))
    ∧ (recs !! 1) ≫= (λ rec, rec !! "N") = Some 4%Z
    ∧ (recs !! 1) ≫= (λ rec, rec !! "N    ") = None.
Proof. eexists. split_and!; vm_compute; reflexivity. Qed.

(** The instance of X20 for the driver that has no cursor to give. *)
Lemma cursor_failure_leaves_object_witness :
  create insert_a (Row a_and_b) (tt, with_cursor)
  = ((tt, with_cursor), Raise (DriverError "no cursor"))
  ∧ read insert_a (Some a_and_b) false (tt, with_cursor)
    = ((tt, with_cursor), Raise (DriverError "no cursor"))
  ∧ CnnRest.update insert_a (Some a_and_b) (tt, with_cursor)
    = ((tt, with_cursor), Raise (DriverError "no cursor"))
  ∧ CnnRest.delete insert_a (Some a_and_b) (tt, with_cursor)
    = ((tt, with_cursor), Raise (DriverError "no cursor"))
  ∧ getPrimaryKey 7%Z (tt, with_cursor)
    = ((tt, with_cursor), Raise (DriverError "no cursor")).
Proof.
  apply (cursor_failure_leaves_object insert_a (Some a_and_b) (Row a_and_b) false 7%Z
           tt tt with_cursor (DriverError "no cursor")).
  reflexivity.
Defined.

End Instances.
